(** * mcp-cassandra: schema description and CREATE TABLE synthesis

    A shallow embedding of the tools of the server:

    - [DescribeTableTool.getColumnTypeString] (src/tools/DisconnectTool.ts,
      lines 137-199), which turns a raw type descriptor of the driver
      into a type name, and [DescribeTableTool.execute];
    - [ShowTableSchemaTool.execute] (src/tools/ShowTableSchemaTool.ts),
      which reads three catalog tables and builds a CREATE TABLE statement;
    - the statement builder of [SelectRowsTool.execute],
      [getConsistencyLevel], [ListKeyspacesTool.execute],
      [ListTablesTool] and the connection module [cassandra-client].

    JavaScript values are modelled by the inductive type [Js.value];
    catalog rows whose columns have a fixed CQL type are records. *)

From Stdlib Require Import ZArith List String Ascii Bool Lia.
From Stdlib Require Import Permutation Sorted.
From Stdlib Require Import DecimalString.
Import ListNotations.

Open Scope list_scope.
Open Scope string_scope.

Set Warnings "-register-all".

(* ================================================================== *)
(** ** Characters and strings *)

Module Text.

(** Characters that cannot be written inside a string literal. *)
Definition LF : string := String (ascii_of_nat 10) EmptyString.
Definition dquote : ascii := ascii_of_nat 34.
Definition squote : ascii := ascii_of_nat 39.
Definition backslash : ascii := ascii_of_nat 92.

Definition isUpperAscii (c : ascii) : bool :=
  let n := nat_of_ascii c in (65 <=? n)%nat && (n <=? 90)%nat.

Definition isLowerAscii (c : ascii) : bool :=
  let n := nat_of_ascii c in (97 <=? n)%nat && (n <=? 122)%nat.

Definition lowerAscii (c : ascii) : ascii :=
  if isUpperAscii c then ascii_of_nat (nat_of_ascii c + 32) else c.

Definition upperAscii (c : ascii) : ascii :=
  if isLowerAscii c then ascii_of_nat (nat_of_ascii c - 32) else c.

Fixpoint mapString (f : ascii -> ascii) (s : string) : string :=
  match s with
  | EmptyString => EmptyString
  | String c rest => String (f c) (mapString f rest)
  end.

(** [String.prototype.toLowerCase] and [toUpperCase], on the ASCII
    letters (catalog identifiers and CQL keywords are ASCII). *)
Definition toLowerCase : string -> string := mapString lowerAscii.
Definition toUpperCase : string -> string := mapString upperAscii.

(** [Array.prototype.join] on an array of strings. *)
Fixpoint join (sep : string) (l : list string) : string :=
  match l with
  | [] => EmptyString
  | [x] => x
  | x :: rest => x ++ sep ++ join sep rest
  end.

(** The global replace of the options formatter: every double quote
    of [s] becomes a single quote. *)
Definition replaceQuotes : string -> string :=
  mapString (fun c => if Ascii.eqb c dquote then squote else c).

(** [key.replace(/_([a-z])/g, (_, letter) => letter.toUpperCase())]:
    matches are found left to right and do not overlap. *)
Fixpoint snakeToCamel (s : string) : string :=
  match s with
  | EmptyString => EmptyString
  | String c rest =>
      match rest with
      | String letter rest' =>
          if Ascii.eqb c "_" && isLowerAscii letter
          then String (upperAscii letter) (snakeToCamel rest')
          else String c (snakeToCamel rest)
      | EmptyString => String c EmptyString
      end
  end.

Definition includes (l : list string) (key : string) : bool :=
  existsb (String.eqb key) l.

(** [s] starts with [p]. *)
Definition startsWith (p s : string) : bool := String.prefix p s.

(** Every character of [s] is an ASCII character. *)
Fixpoint isAsciiText (s : string) : bool :=
  match s with
  | EmptyString => true
  | String c rest => (nat_of_ascii c <? 128)%nat && isAsciiText rest
  end.

(** The character [c] occurs in [s]. *)
Fixpoint occurs (c : ascii) (s : string) : bool :=
  match s with
  | EmptyString => false
  | String d rest => Ascii.eqb c d || occurs c rest
  end.

End Text.

(** The canonical lower case of the specification, written from the
    alphabet and not from the code, to compare [toLowerCase] with. *)
Module CanonicalLowercase.

Definition capitals : string := "ABCDEFGHIJKLMNOPQRSTUVWXYZ".
Definition smalls : string := "abcdefghijklmnopqrstuvwxyz".

(** The small letter at the place of [c] among the capitals, [c] itself
    when it is no capital. *)
Fixpoint letterIn (capitals smalls : string) (c : ascii) : ascii :=
  match capitals, smalls with
  | String capital capitals', String small smalls' =>
      if Ascii.eqb c capital then small else letterIn capitals' smalls' c
  | _, _ => c
  end.

Definition letter : ascii -> ascii := letterIn capitals smalls.

Fixpoint lowercase (s : string) : string :=
  match s with
  | EmptyString => EmptyString
  | String c rest => String (letter c) (lowercase rest)
  end.

End CanonicalLowercase.

(* ================================================================== *)
(** ** JavaScript values *)

Module Js.
Import Text.

(** A JavaScript number, given by the decimal that [Number::toString]
    prints for it: the shortest one that reads back as the number.
    [Int z] is the number written as the integer [z]; up to 2^53 in
    magnitude every integer is a number and is written as itself (type
    codes, positions, ports and the integer options are there), and
    [Int 0] is both zeros.  [Dec negative digits places] is the number
    written with a fraction: [digits], no multiple of ten, divided by
    the [places]-th power of ten, with the sign ([0.01] is
    [Dec false 1 2]).  Not every decimal is the shortest one of a
    number; what holds of all decimals holds of the numbers. *)
Inductive number : Type :=
| Int (z : Z)
| Dec (negative : bool) (digits : positive) (places : positive)
| NaN
| Infinity (negative : bool).

Coercion Int : Z >-> number.
Bind Scope Z_scope with number.

(** The values the tools receive from the driver.  An object is the
    list of its own enumerable string-keyed properties, in the order
    [Object.entries] lists them; the keys of a well-formed object are
    distinct. *)
Inductive value : Type :=
| Undefined
| Null
| Bool (b : bool)
| Num (n : number)
| Str (s : string)
| Arr (elems : list value)
| Obj (props : list (string * value)).

Definition typeof (v : value) : string :=
  match v with
  | Undefined => "undefined"
  | Null | Arr _ | Obj _ => "object"
  | Bool _ => "boolean"
  | Num _ => "number"
  | Str _ => "string"
  end.

(** [ToBoolean]. *)
Definition truthy (v : value) : bool :=
  match v with
  | Undefined | Null => false
  | Bool b => b
  | Num (Int z) => negb (z =? 0)%Z
  | Num NaN => false
  | Num _ => true
  | Str s => negb (String.eqb s EmptyString)
  | Arr _ | Obj _ => true
  end.

Definition isUndefined (v : value) : bool :=
  match v with Undefined => true | _ => false end.

Definition isNull (v : value) : bool :=
  match v with Null => true | _ => false end.

Definition isArray (v : value) : bool :=
  match v with Arr _ => true | _ => false end.

Fixpoint lookup (props : list (string * value)) (key : string) : option value :=
  match props with
  | [] => None
  | (k, v) :: rest => if String.eqb k key then Some v else lookup rest key
  end.

(** [v.key] for the property names the tools read ([code], [name],
    [info], [keyType], ...): a missing property, and any of these names
    on a primitive or an array, is [undefined].  The tools read a
    property only of a value they have tested to be truthy, so the
    TypeError of a read on [null] or [undefined] cannot occur. *)
Definition get (v : value) (key : string) : value :=
  match v with
  | Obj props => match lookup props key with Some x => x | None => Undefined end
  | _ => Undefined
  end.

(** [v[0]]. *)
Definition first (v : value) : value :=
  match v with
  | Arr (x :: _) => x
  | _ => Undefined
  end.

Definition elements (v : value) : list value :=
  match v with Arr elems => elems | _ => [] end.

(** [code === typeCode], [code] being an integer. *)
Definition strictEqNum (code : Z) (typeCode : value) : bool :=
  match typeCode with Num (Int z) => (code =? z)%Z | _ => false end.

(** The decimal digits of a positive integer. *)
Definition digitsOf (p : positive) : string :=
  NilZero.string_of_uint (Pos.to_uint p).

Fixpoint zeros (n : nat) : string :=
  match n with
  | O => EmptyString
  | S m => String "0" (zeros m)
  end.

(** [s] without the zeros at its end. *)
Fixpoint dropZeros (s : string) : string :=
  match s with
  | EmptyString => EmptyString
  | String c rest =>
      match dropZeros rest with
      | EmptyString => if Ascii.eqb c "0" then EmptyString else String c EmptyString
      | kept => String c kept
      end
  end.

(** [Number::toString] in radix 10 on a positive finite number: [s] are
    its [k] significant digits and the decimal point comes after the
    [n]-th of them.  The four cases are those of the standard: the
    digits and [n - k] zeros; the digits with a point inside; [0.],
    [-n] zeros and the digits; the exponent notation. *)
Definition decimalToString (s : string) (n : Z) : string :=
  let k := Z.of_nat (String.length s) in
  if (k <=? n)%Z && (n <=? 21)%Z then s ++ zeros (Z.to_nat (n - k))
  else if (0 <? n)%Z && (n <=? 21)%Z then
    substring 0 (Z.to_nat n) s ++ "."
      ++ substring (Z.to_nat n) (Z.to_nat (k - n)) s
  else if (-6 <? n)%Z && (n <=? 0)%Z then
    "0." ++ zeros (Z.to_nat (- n)) ++ s
  else
    let e := (n - 1)%Z in
    let exponent :=
      (if (e <? 0)%Z then "-" else "+")
        ++ NilZero.string_of_uint (N.to_uint (Z.to_N (Z.abs e))) in
    if (k =? 1)%Z then s ++ "e" ++ exponent
    else substring 0 1 s ++ "." ++ substring 1 (Z.to_nat (k - 1)) s
           ++ "e" ++ exponent.

(** [Number::toString].  An integer below 10^21 is written with all its
    digits (the first case of [decimalToString]). *)
Definition NumberToString (n : number) : string :=
  match n with
  | Int z =>
      if (Z.abs z <? 10 ^ 21)%Z then NilZero.string_of_int (Z.to_int z)
      else
        let digits := digitsOf (Z.to_pos (Z.abs z)) in
        (if (z <? 0)%Z then "-" else EmptyString)
          ++ decimalToString (dropZeros digits)
                             (Z.of_nat (String.length digits))
  | Dec negative digits places =>
      (if negative then "-" else EmptyString)
        ++ decimalToString (digitsOf digits)
             (Z.of_nat (String.length (digitsOf digits)) - Z.pos places)
  | NaN => "NaN"
  | Infinity negative => if negative then "-Infinity" else "Infinity"
  end.

(** All the strings of a list of results, or the first exception. *)
Fixpoint sequence (l : list (option string)) : option (list string) :=
  match l with
  | [] => Some []
  | None :: _ => None
  | Some s :: rest =>
      match sequence rest with Some ss => Some (s :: ss) | None => None end
  end.

(** [String(v)] and the conversion of a template literal; [None] is a
    thrown TypeError.  An array is joined with commas, [null] and
    [undefined] elements giving the empty string.  An object inherits
    [Object.prototype.toString]; when it has an own [toString] property
    (which in this model is data, not a function) the conversion finds
    no callable method that returns a primitive, and throws. *)
Fixpoint ToString (v : value) : option string :=
  match v with
  | Undefined => Some "undefined"
  | Null => Some "null"
  | Bool b => Some (if b then "true" else "false")
  | Num n => Some (NumberToString n)
  | Str s => Some s
  | Arr elems =>
      match sequence (map (fun x => match x with
                                    | Undefined | Null => Some EmptyString
                                    | _ => ToString x
                                    end) elems) with
      | Some ss => Some (join "," ss)
      | None => None
      end
  | Obj props =>
      match lookup props "toString" with
      | Some _ => None
      | None => Some "[object Object]"
      end
  end.

(** [Array.prototype.join(sep)] on an array of values. *)
Definition joinValues (sep : string) (l : list value) : option string :=
  match sequence (map (fun x => match x with
                                | Undefined | Null => Some EmptyString
                                | _ => ToString x
                                end) l) with
  | Some ss => Some (join sep ss)
  | None => None
  end.

(** Nesting depth, the measure of the recursion of the resolver. *)
Fixpoint depth (v : value) : nat :=
  match v with
  | Arr elems => S (list_max (map depth elems))
  | Obj props => S (list_max (map (fun p => depth (snd p)) props))
  | _ => 0
  end.

End Js.

(* ================================================================== *)
(** ** DescribeTableTool.getColumnTypeString *)

Module DescribeTable.
Import Text Js.

Section Resolver.

(** [types.dataTypes] of the cassandra-driver package, which is not part
    of the repository: its entries whose value is a number, in the order
    [Object.entries] lists them.  The other entries of the driver's
    object are functions, and no data value is strictly equal to one. *)
Variable dataTypes : list (string * Z).

(** The [for] loop over [Object.entries(types.dataTypes)]: the name of
    the first entry whose code is strictly equal to [typeCode], in lower
    case. *)
Definition nameOfCode (typeCode : value) : option string :=
  match find (fun entry => strictEqNum (snd entry) typeCode) dataTypes with
  | Some entry => Some (toLowerCase (fst entry))
  | None => None
  end.

(** The statements inside [try], with the recursive calls made through
    [self].  [None] is an exception thrown inside the block. *)
Definition tryBlock (self : value -> value) (type : value) : option value :=
  if String.eqb (typeof type) "string" then Some type
  else
    if truthy type && String.eqb (typeof type) "object" then
      if negb (isUndefined (get type "code")) then
        let typeCode := get type "code" in
        match nameOfCode typeCode with
        | Some name => Some (Str name)
        | None =>
            match ToString typeCode with
            | Some c => Some (Str ("type_" ++ c))
            | None => None
            end
        end
      else if truthy (get type "name") then Some (get type "name")
      else
        let info := get type "info" in
        if truthy info && truthy (get info "keyType")
           && truthy (get info "valueType") then
          let keyType := self (get info "keyType") in
          let valueType := self (get info "valueType") in
          match ToString keyType, ToString valueType with
          | Some k, Some v => Some (Str ("map<" ++ k ++ ", " ++ v ++ ">"))
          | _, _ => None
          end
        else if truthy info && truthy (get info "elementType") then
          let elementType := self (get info "elementType") in
          match ToString elementType with
          | Some e => Some (Str ("list<" ++ e ++ ">"))
          | None => None
          end
        else if truthy info && isArray info then
          match ToString (self (first info)) with
          | Some e => Some (Str ("set<" ++ e ++ ">"))
          | None => None
          end
        else if truthy info && isArray (get info "types") then
          match joinValues ", " (map self (elements (get info "types"))) with
          | Some tupleTypes => Some (Str ("tuple<" ++ tupleTypes ++ ">"))
          | None => None
          end
        else
          match ToString type with Some s => Some (Str s) | None => None end
    else
      match ToString type with Some s => Some (Str s) | None => None end.

(** The whole body: the falsy guard, then the [try] block, whose
    exceptions the [catch] clause turns into ['unknown']. *)
Definition body (self : value -> value) (type : value) : value :=
  if negb (truthy type) then Str "unknown"
  else
    match tryBlock self type with
    | Some result => result
    | None => Str "unknown"
    end.

(** The resolver on an engine that lets [fuel] calls of it nest.  (A
    call the engine cannot nest any deeper throws a RangeError inside
    [try]; the value at fuel [0] is what the [catch] clause returns
    then.) *)
Fixpoint getColumnTypeString_fuel (fuel : nat) (type : value) : value :=
  match fuel with
  | O => Str "unknown"
  | S fuel' => body (getColumnTypeString_fuel fuel') type
  end.

(** The resolver where the call stack does not run out: the recursion
    descends into strictly shallower values, so [depth] many unfoldings
    reach every call. *)
Definition getColumnTypeString (type : value) : value :=
  getColumnTypeString_fuel (S (depth type)) type.

End Resolver.

(** The shape tests of the body, by name. *)
Definition hasCode (type : value) : bool :=
  negb (isUndefined (get type "code")).

Definition hasName (type : value) : bool := truthy (get type "name").

Definition isMapShape (type : value) : bool :=
  truthy (get type "info")
  && truthy (get (get type "info") "keyType")
  && truthy (get (get type "info") "valueType").

Definition isListShape (type : value) : bool :=
  truthy (get type "info") && truthy (get (get type "info") "elementType").

Definition isSetShape (type : value) : bool :=
  truthy (get type "info") && isArray (get type "info").

Definition isTupleShape (type : value) : bool :=
  truthy (get type "info") && isArray (get (get type "info") "types").

(** A descriptor none of the tests recognizes. *)
Definition unrecognized (type : value) : bool :=
  negb (String.eqb (typeof type) "string")
  && negb (hasCode type) && negb (hasName type)
  && negb (isMapShape type) && negb (isListShape type)
  && negb (isSetShape type) && negb (isTupleShape type).

(** The [name] field of a descriptor is a string when it is there. *)
Definition nameIsText (type : value) : bool :=
  match get type "name" with
  | Undefined | Str _ => true
  | _ => false
  end.

(** A descriptor of one of the resolvable shapes: a plain name, or an
    object that carries a code, a name, or one of the four structural
    shapes, whatever its sub-descriptors are. *)
Definition resolvableShape (type : value) : bool :=
  match type with
  | Str _ => true
  | Obj _ =>
      hasCode type
      || nameIsText type
         && (hasName type || isMapShape type || isListShape type
             || isSetShape type || isTupleShape type)
  | _ => false
  end.

(** The codes of the CQL native protocol as cassandra-driver 4 lists
    them in [types.dataTypes]; the instance used in the examples. *)
Definition cassandraDataTypes : list (string * Z) :=
  [("custom", 0); ("ascii", 1); ("bigint", 2); ("blob", 3); ("boolean", 4);
   ("counter", 5); ("decimal", 6); ("double", 7); ("float", 8); ("int", 9);
   ("text", 10); ("timestamp", 11); ("uuid", 12); ("varchar", 13);
   ("varint", 14); ("timeuuid", 15); ("inet", 16); ("date", 17);
   ("time", 18); ("smallint", 19); ("tinyint", 20); ("duration", 21);
   ("list", 32); ("map", 33); ("set", 34); ("udt", 48); ("tuple", 49)]%Z.

End DescribeTable.

(* ================================================================== *)
(** ** JSON.stringify *)

Module Json.
Import Text Js.

Definition hexDigit (n : nat) : ascii :=
  nth n (list_ascii_of_string "0123456789abcdef") "0"%char.

(** One character of [QuoteJSONString]. *)
Definition escape (c : ascii) : string :=
  let n := nat_of_ascii c in
  if (n =? 34)%nat then String backslash (String dquote EmptyString)
  else if (n =? 92)%nat then String backslash (String backslash EmptyString)
  else if (n =? 8)%nat then String backslash "b"
  else if (n =? 12)%nat then String backslash "f"
  else if (n =? 10)%nat then String backslash "n"
  else if (n =? 13)%nat then String backslash "r"
  else if (n =? 9)%nat then String backslash "t"
  else if (n <? 32)%nat then
    String backslash
      ("u00" ++ String (hexDigit (n / 16)) (String (hexDigit (n mod 16)) EmptyString))
  else String c EmptyString.

Fixpoint escapeAll (s : string) : string :=
  match s with
  | EmptyString => EmptyString
  | String c rest => escape c ++ escapeAll rest
  end.

Definition quote (s : string) : string :=
  String dquote (escapeAll s ++ String dquote EmptyString).

(** The characters [QuoteJSONString] copies: neither a control
    character, nor the double quote, nor the backslash. *)
Fixpoint unescaped (s : string) : bool :=
  match s with
  | EmptyString => true
  | String c rest =>
      let n := nat_of_ascii c in
      (32 <=? n)%nat && negb (n =? 34)%nat && negb (n =? 92)%nat
      && unescaped rest
  end.

(** The serialization of a value inside an array or an object, and of
    an array or an object itself: no white space; in an array
    [undefined] is written [null]; a property whose value is
    [undefined] is left out; a number that is not finite is written
    [null]. *)
Fixpoint stringify (v : value) : string :=
  match v with
  | Undefined | Null => "null"
  | Bool b => if b then "true" else "false"
  | Num NaN | Num (Infinity _) => "null"
  | Num n => NumberToString n
  | Str s => quote s
  | Arr elems => "[" ++ join "," (map stringify elems) ++ "]"
  | Obj props =>
      "{" ++ join ","
               (flat_map (fun p =>
                            if isUndefined (snd p) then []
                            else [(quote (fst p) ++ ":" ++ stringify (snd p))%string])
                         props)
          ++ "}"
  end.

End Json.

(* ================================================================== *)
(** ** ShowTableSchemaTool.execute *)

(** A row of [system_schema.columns]: the fields the tool reads, both
    of CQL type text and never null. *)
Module ColumnRow.
Record t : Type := { column_name : string; type : string }.
End ColumnRow.

(** A row of [system_schema.key_columns].  [clustering_order] is a
    nullable text column: [None] stands for [null] or a missing field. *)
Module KeyRow.
Record t : Type :=
  { column_name : string;
    kind : string;
    position : Z;
    clustering_order : option string }.
End KeyRow.

Module ShowTableSchema.
Import Text Js.

(** A row of [system_schema.tables], read generically through
    [Object.entries]: its fields in order. *)
Definition TableRow : Type := list (string * value).

(** What [client.execute] gives for one query: the rows of the result
    set, or a rejection with the error's message. *)
Inductive QueryOutcome (row : Type) : Type :=
| Rows (rows : list row)
| Rejected (message : string).
Arguments Rows {row} rows.
Arguments Rejected {row} message.

(** The catalog as the three queries of the tool see it for the
    requested keyspace and table. *)
Record Catalog : Type :=
  { tables : QueryOutcome TableRow;
    columns : QueryOutcome ColumnRow.t;
    key_columns : QueryOutcome KeyRow.t }.

(** The object the tool returns: [{ message }], [{ schema }] or
    [{ error }]. *)
Inductive Output : Type :=
| Message (message : string)
| Schema (schema : string)
| Error (error : string).

Section Sort.
Context {A : Type} (compareFn : A -> A -> Z).

Fixpoint insert (x : A) (l : list A) : list A :=
  match l with
  | [] => [x]
  | y :: rest =>
      if (compareFn x y <=? 0)%Z then x :: l else y :: insert x rest
  end.

(** [Array.prototype.sort(compareFn)]: the language requires the sort
    to be stable (the README asks for Node.js 18.19 or higher), and
    with a consistent comparator the stable sorted arrangement of an
    array is unique ([SortFacts.sort_unique] below); insertion from the
    right computes it. *)
Definition sort (l : list A) : list A := fold_right insert [] l.

End Sort.

(** A comparator that subtracts a numeric field, and the order it
    sorts into. *)
Definition compareBy {A : Type} (field : A -> Z) (a b : A) : Z :=
  (field a - field b)%Z.

Definition fieldLe {A : Type} (field : A -> Z) (a b : A) : Prop :=
  (field a <= field b)%Z.

(** [(a, b) => a.position - b.position] *)
Definition byPosition : KeyRow.t -> KeyRow.t -> Z := compareBy KeyRow.position.

(** [key => key.kind === 'partition_key'] *)
Definition isPartitionKey (key : KeyRow.t) : bool :=
  String.eqb (KeyRow.kind key) "partition_key".

(** [key => key.kind === 'clustering'] *)
Definition isClusteringKey (key : KeyRow.t) : bool :=
  String.eqb (KeyRow.kind key) "clustering".


Definition partitionKeyRows (rows : list KeyRow.t) : list KeyRow.t :=
  sort byPosition (filter isPartitionKey rows).

Definition partitionKeys (rows : list KeyRow.t) : list string :=
  map KeyRow.column_name (partitionKeyRows rows).

Record ClusteringKey : Type := { name : string; order : string }.

(** [key.clustering_order?.toUpperCase() || 'ASC'] *)
Definition orderOf (key : KeyRow.t) : string :=
  match KeyRow.clustering_order key with
  | None => "ASC"
  | Some s =>
      if truthy (Str (toUpperCase s)) then toUpperCase s else "ASC"
  end.

Definition clusteringKeyRows (rows : list KeyRow.t) : list KeyRow.t :=
  sort byPosition (filter isClusteringKey rows).

(** The two directions of the data model. *)
Definition recognizedOrder (s : string) : bool :=
  String.eqb (toUpperCase s) "ASC" || String.eqb (toUpperCase s) "DESC".

Definition clusteringKeys (rows : list KeyRow.t) : list ClusteringKey :=
  map (fun key => {| name := KeyRow.column_name key; order := orderOf key |})
      (clusteringKeyRows rows).

(** One column of the statement. *)
Definition columnLine (col : ColumnRow.t) : string :=
  "  " ++ ColumnRow.column_name col ++ " " ++ ColumnRow.type col.

(** The [forEach] over the column rows, appending to the statement. *)
Definition addColumns (createStatement : string) (rows : list ColumnRow.t)
  : string :=
  fold_left
    (fun acc (entry : nat * ColumnRow.t) =>
       let (index, col) := entry in
       let acc :=
         acc ++ "  " ++ ColumnRow.column_name col ++ " " ++ ColumnRow.type col in
       if (Z.of_nat index <? Z.of_nat (List.length rows) - 1)%Z
       then acc ++ "," ++ LF
       else acc)
    (combine (seq 0 (List.length rows)) rows)
    createStatement.

Definition addPrimaryKey (createStatement : string)
  (partitionKeys : list string) (clusteringKeys : list ClusteringKey)
  : string :=
  if (0 <? List.length partitionKeys)%nat || (0 <? List.length clusteringKeys)%nat then
    let createStatement := createStatement ++ "," ++ LF ++ "  PRIMARY KEY (" in
    let createStatement :=
      if (List.length partitionKeys =? 1)%nat then
        createStatement ++ hd "undefined" partitionKeys
      else if (1 <? List.length partitionKeys)%nat then
        createStatement ++ "(" ++ join ", " partitionKeys ++ ")"
      else createStatement in
    let createStatement :=
      if (0 <? List.length clusteringKeys)%nat then
        createStatement ++ ", " ++ join ", " (map name clusteringKeys)
      else createStatement in
    createStatement ++ ")"
  else createStatement.

Definition addClusteringOrder (createStatement : string)
  (clusteringKeys : list ClusteringKey) : string :=
  if (0 <? List.length clusteringKeys)%nat then
    let clusteringOrders :=
      join ", " (map (fun key => name key ++ " " ++ order key) clusteringKeys) in
    createStatement ++ " WITH CLUSTERING ORDER BY (" ++ clusteringOrders ++ ")"
  else createStatement.

Definition optionsToInclude : list string :=
  ["bloom_filter_fp_chance"; "caching"; "comment"; "compaction";
   "compression"; "crc_check_chance"; "default_time_to_live";
   "gc_grace_seconds"; "read_repair_chance"; "speculative_retry"].

(** [formattedValue], as the template literal of the clause prints it. *)
Definition formatValue (v : value) : string :=
  if String.eqb (typeof v) "object" then replaceQuotes (Json.stringify v)
  else if String.eqb (typeof v) "string" then
    match v with
    | Str s => String squote (s ++ String squote EmptyString)
    | _ => EmptyString
    end
  else
    match ToString v with Some s => s | None => EmptyString end.

Definition formatOption (entry : string * value) : string :=
  "  " ++ snakeToCamel (fst entry) ++ " = " ++ formatValue (snd entry).

Definition tableOptions (tableInfo : TableRow) : list string :=
  map formatOption
      (filter (fun entry =>
                 includes optionsToInclude (fst entry)
                 && negb (isNull (get (Obj tableInfo) (fst entry))))
              tableInfo).

Definition addTableOptions (createStatement : string)
  (tableOptions : list string) (clusteringKeys : list ClusteringKey)
  : string :=
  if (0 <? List.length tableOptions)%nat then
    let createStatement :=
      if (List.length clusteringKeys =? 0)%nat
      then createStatement ++ " WITH" ++ LF
      else createStatement ++ " AND" ++ LF in
    createStatement ++ join (" AND" ++ LF) tableOptions
  else createStatement.

(** The storage options as a clause after [introducer], nothing when
    there are none. *)
Definition optionsClause (introducer : string) (tableOptions : list string)
  : string :=
  match tableOptions with
  | [] => EmptyString
  | _ => introducer ++ LF ++ join (" AND" ++ LF) tableOptions
  end.

(** The statement built once the three result sets are there. *)
Definition createTable (keyspaceName tableName : string)
  (tableInfo : TableRow) (columnRows : list ColumnRow.t)
  (keyRows : list KeyRow.t) : string :=
  let partitionKeys := partitionKeys keyRows in
  let clusteringKeys := clusteringKeys keyRows in
  let createStatement :=
    "CREATE TABLE " ++ keyspaceName ++ "." ++ tableName ++ " (" ++ LF in
  let createStatement := addColumns createStatement columnRows in
  let createStatement :=
    addPrimaryKey createStatement partitionKeys clusteringKeys in
  let createStatement := createStatement ++ LF ++ ")" in
  let createStatement := addClusteringOrder createStatement clusteringKeys in
  let createStatement :=
    addTableOptions createStatement (tableOptions tableInfo) clusteringKeys in
  createStatement ++ ";".

Definition failure (keyspaceName tableName message : string) : Output :=
  Error ("Failed to get schema for table '" ++ keyspaceName ++ "."
           ++ tableName ++ "': " ++ message).

(** [execute]: the queries are awaited in order, and a rejected one
    lands in the [catch] clause. *)
Definition execute (keyspaceName tableName : string) (db : Catalog) : Output :=
  match tables db with
  | Rejected message => failure keyspaceName tableName message
  | Rows [] =>
      Message ("Table '" ++ keyspaceName ++ "." ++ tableName ++ "' not found.")
  | Rows (tableInfo :: _) =>
      match columns db with
      | Rejected message => failure keyspaceName tableName message
      | Rows [] =>
          Message ("No columns found for table '" ++ keyspaceName ++ "."
                     ++ tableName ++ "'.")
      | Rows columnRows =>
          match key_columns db with
          | Rejected message => failure keyspaceName tableName message
          | Rows keyRows =>
              Schema (createTable keyspaceName tableName tableInfo
                                  columnRows keyRows)
          end
      end
  end.

End ShowTableSchema.

(* ================================================================== *)
(** ** DescribeTableTool.execute *)

(** A row of [system_schema.columns] as the describe tool reads it: the
    type goes through [getColumnTypeString], the position is copied. *)
Module DescribeColumnRow.
Record t : Type :=
  { column_name : string;
    type : Js.value;
    position : Js.value }.
End DescribeColumnRow.

Module Describe.
Import Text Js.

(** A column of the description.  The fallback path writes no
    [position]. *)
Module Column.
Record t : Type :=
  { name : string;
    type : value;
    position : option value;
    kind : string }.
End Column.

Record ClusteringOrder : Type := { column : string; order : string }.

(** The object the tool returns for a table it found.  The fallback
    path writes neither [clusteringOrder] nor [tableOptions]. *)
Record Description : Type :=
  { name : string;
    keyspace : string;
    columns : list Column.t;
    partitionKeys : list string;
    clusteringKeys : list string;
    clusteringOrder : option (list ClusteringOrder);
    tableOptions : option (list (string * value)) }.

Inductive Output : Type :=
| Message (message : string)
| Described (description : Description)
| Error (error : string).

(** The three queries of the first attempt and the three of the
    fallback, as [client.execute] answers them. *)
Record Catalog : Type :=
  { tableResult : ShowTableSchema.QueryOutcome ShowTableSchema.TableRow;
    columnsResult : ShowTableSchema.QueryOutcome DescribeColumnRow.t;
    keysResult : ShowTableSchema.QueryOutcome KeyRow.t;
    fallbackTableCheck : ShowTableSchema.QueryOutcome ShowTableSchema.TableRow;
    fallbackColumnsResult : ShowTableSchema.QueryOutcome DescribeColumnRow.t;
    fallbackKeysResult : ShowTableSchema.QueryOutcome KeyRow.t }.

(** The conditional that tags a column. *)
Definition kindOf (partitionKeys clusteringKeys : list string)
  (column_name : string) : string :=
  if includes partitionKeys column_name then "partition_key"
  else if includes clusteringKeys column_name then "clustering_key"
  else "regular".

(** [keysResult.rows.sort((a, b) => a.position - b.position)] *)
Definition keyColumns (keyRows : list KeyRow.t) : list KeyRow.t :=
  ShowTableSchema.sort ShowTableSchema.byPosition keyRows.

(** The order of one clustering column: the first key row of that name
    gives it. *)
Definition orderFor (keyColumns : list KeyRow.t) (name : string) : string :=
  match find (fun k => String.eqb (KeyRow.column_name k) name) keyColumns with
  | Some keyInfo =>
      match KeyRow.clustering_order keyInfo with
      | Some s => if truthy (Str s) then toUpperCase s else "ASC"
      | None => "ASC"
      end
  | None => "ASC"
  end.

(** The keys of the [tableOptions] object and the fields of the table
    row they read. *)
Definition optionFields : list (string * string) :=
  [("bloomFilterFpChance", "bloom_filter_fp_chance");
   ("caching", "caching");
   ("comment", "comment");
   ("compaction", "compaction");
   ("compression", "compression");
   ("crcCheckChance", "crc_check_chance");
   ("dcLocalReadRepairChance", "dclocal_read_repair_chance");
   ("defaultTimeToLive", "default_time_to_live");
   ("gcGraceSeconds", "gc_grace_seconds");
   ("maxIndexInterval", "max_index_interval");
   ("memtableFlushPeriodInMs", "memtable_flush_period_in_ms");
   ("minIndexInterval", "min_index_interval");
   ("readRepairChance", "read_repair_chance");
   ("speculative_retry", "speculative_retry")].

Section Tool.
Variable dataTypes : list (string * Z).

(** The description built by the first attempt. *)
Definition describe (keyspaceName tableName : string)
  (tableOptions : ShowTableSchema.TableRow)
  (columnRows : list DescribeColumnRow.t) (keyRows : list KeyRow.t)
  : Description :=
  let keyColumns := keyColumns keyRows in
  let partitionKeys :=
    map KeyRow.column_name (filter ShowTableSchema.isPartitionKey keyColumns) in
  let clusteringKeys :=
    map KeyRow.column_name (filter ShowTableSchema.isClusteringKey keyColumns) in
  let columns :=
    map (fun col =>
           {| Column.name := DescribeColumnRow.column_name col;
              Column.type := DescribeTable.getColumnTypeString dataTypes
                               (DescribeColumnRow.type col);
              Column.position := Some (DescribeColumnRow.position col);
              Column.kind := kindOf partitionKeys clusteringKeys
                                    (DescribeColumnRow.column_name col) |})
        columnRows in
  let clusteringOrder :=
    map (fun col => {| column := Column.name col;
                       order := orderFor keyColumns (Column.name col) |})
        (filter (fun col => String.eqb (Column.kind col) "clustering_key")
                columns) in
  {| name := tableName;
     keyspace := keyspaceName;
     columns := columns;
     partitionKeys := partitionKeys;
     clusteringKeys := clusteringKeys;
     clusteringOrder := Some clusteringOrder;
     tableOptions :=
       Some (map (fun field => (fst field, get (Obj tableOptions) (snd field)))
                 optionFields) |}.

(** The description built by the fallback. *)
Definition describeFallback (keyspaceName tableName : string)
  (columnRows : list DescribeColumnRow.t) (keyRows : list KeyRow.t)
  : Description :=
  let partitionKeys := ShowTableSchema.partitionKeys keyRows in
  let clusteringKeys :=
    map KeyRow.column_name (ShowTableSchema.clusteringKeyRows keyRows) in
  {| name := tableName;
     keyspace := keyspaceName;
     columns :=
       map (fun col =>
              {| Column.name := DescribeColumnRow.column_name col;
                 Column.type := DescribeColumnRow.type col;
                 Column.position := None;
                 Column.kind := kindOf partitionKeys clusteringKeys
                                       (DescribeColumnRow.column_name col) |})
           columnRows;
     partitionKeys := partitionKeys;
     clusteringKeys := clusteringKeys;
     clusteringOrder := None;
     tableOptions := None |}.

Definition notFound (keyspaceName tableName : string) : Output :=
  Message ("Table '" ++ keyspaceName ++ "." ++ tableName ++ "' not found.").

(** The statements of the outer [try]: a result, or the message of the
    error that was thrown. *)
Definition firstAttempt (keyspaceName tableName : string) (db : Catalog)
  : Output + string :=
  match tableResult db with
  | ShowTableSchema.Rejected message => inr message
  | ShowTableSchema.Rows [] => inl (notFound keyspaceName tableName)
  | ShowTableSchema.Rows (tableOptions :: _) =>
      match columnsResult db with
      | ShowTableSchema.Rejected message => inr message
      | ShowTableSchema.Rows columnRows =>
          match keysResult db with
          | ShowTableSchema.Rejected message => inr message
          | ShowTableSchema.Rows keyRows =>
              inl (Described (describe keyspaceName tableName tableOptions
                                       columnRows keyRows))
          end
      end
  end.

(** The statements of the [try] inside the [catch] clause. *)
Definition fallback (keyspaceName tableName : string) (db : Catalog)
  : Output + string :=
  match fallbackTableCheck db with
  | ShowTableSchema.Rejected message => inr message
  | ShowTableSchema.Rows [] => inl (notFound keyspaceName tableName)
  | ShowTableSchema.Rows (_ :: _) =>
      match fallbackColumnsResult db with
      | ShowTableSchema.Rejected message => inr message
      | ShowTableSchema.Rows columnRows =>
          match fallbackKeysResult db with
          | ShowTableSchema.Rejected message => inr message
          | ShowTableSchema.Rows keyRows =>
              inl (Described (describeFallback keyspaceName tableName
                                               columnRows keyRows))
          end
      end
  end.

(** [execute]: when the fallback fails too, the message reported is the
    one of the first error. *)
Definition execute (keyspaceName tableName : string) (db : Catalog) : Output :=
  match firstAttempt keyspaceName tableName db with
  | inl result => result
  | inr message =>
      match fallback keyspaceName tableName db with
      | inl result => result
      | inr _ =>
          Error ("Failed to describe table '" ++ keyspaceName ++ "."
                   ++ tableName ++ "': " ++ message)
      end
  end.

End Tool.

End Describe.
(* ================================================================== *)
(** ** SelectRowsTool.execute: the statement and its parameters *)

Module SelectRows.
Import Text Js.

Inductive Direction : Type := ASC | DESC.

Definition directionText (d : Direction) : string :=
  match d with ASC => "ASC" | DESC => "DESC" end.

Record OrderBy : Type := { column : string; order : Direction }.

(** [orderBy] is one object or an array of them. *)
Inductive OrderByInput : Type :=
| Single (ob : OrderBy)
| Several (obs : list OrderBy).

(** The fields of the input the statement is built from; [None] is a
    field that is not there.  [whereClauses] is an object, given by its
    entries. *)
Record Input : Type :=
  { keyspaceName : string;
    tableName : string;
    selectColumns : option (list string);
    whereClauses : option (list (string * value));
    orderBy : option OrderByInput;
    limit : option Z;
    allowFiltering : option bool }.

(** What is handed to [client.execute]. *)
Record Query : Type := { cql : string; params : list value }.

Definition buildQuery (input : Input) : Query :=
  let fqTableName := keyspaceName input ++ "." ++ tableName input in
  let selectExpression :=
    match selectColumns input with
    | Some ((_ :: _) as columns) => join ", " columns
    | _ => "*"
    end in
  let cql := "SELECT " ++ selectExpression ++ " FROM " ++ fqTableName in
  let (cql, params) :=
    match whereClauses input with
    | Some ((_ :: _) as entries) =>
        let conditions := map (fun entry => fst entry ++ " = ?") entries in
        (cql ++ " WHERE " ++ join " AND " conditions, map snd entries)
    | _ => (cql, [])
    end in
  let cql :=
    match orderBy input with
    | Some given =>
        let orderClauses :=
          match given with Several obs => obs | Single ob => [ob] end in
        if (0 <? List.length orderClauses)%nat then
          let orderByStrings :=
            map (fun ob => column ob ++ " " ++ directionText (order ob))
                orderClauses in
          cql ++ " ORDER BY " ++ join ", " orderByStrings
        else cql
    | None => cql
    end in
  let cql :=
    match limit input with
    | Some n => if truthy (Num n) then cql ++ " LIMIT " ++ NumberToString n
                else cql
    | None => cql
    end in
  let cql :=
    match allowFiltering input with
    | Some true => cql ++ " ALLOW FILTERING"
    | _ => cql
    end in
  {| cql := cql ++ ";"; params := params |}.

(** The same input with other [whereClauses]. *)
Definition withWhereClauses (input : Input)
  (entries : option (list (string * value))) : Input :=
  {| keyspaceName := keyspaceName input;
     tableName := tableName input;
     selectColumns := selectColumns input;
     whereClauses := entries;
     orderBy := orderBy input;
     limit := limit input;
     allowFiltering := allowFiltering input |}.

(** How often the character [c] occurs in [s]. *)
Fixpoint countChar (c : ascii) (s : string) : nat :=
  match s with
  | EmptyString => 0
  | String d rest => (if Ascii.eqb c d then 1 else 0) + countChar c rest
  end.

Definition clean (s : string) : bool := (countChar "?" s =? 0)%nat.

(** No name of the input contains a question mark. *)
Definition namesClean (input : Input) : bool :=
  clean (keyspaceName input) && clean (tableName input)
  && forallb clean (match selectColumns input with Some l => l | None => [] end)
  && forallb (fun entry => clean (fst entry))
             (match whereClauses input with Some l => l | None => [] end)
  && forallb (fun ob => clean (column ob))
             (match orderBy input with
              | Some (Several obs) => obs
              | Some (Single ob) => [ob]
              | None => []
              end).

End SelectRows.
(* ================================================================== *)
(** ** getConsistencyLevel *)

Module Consistency.
Import Text Js.

(** The members of [types.consistencies] of the driver that the tools
    name. *)
Inductive level : Type :=
| any | one | two | three | quorum | localQuorum | eachQuorum
| serial | localSerial | localOne | all.

(** The object literal [mapping]. *)
Definition mapping : list (string * level) :=
  [("ANY", any); ("ONE", one); ("TWO", two); ("THREE", three);
   ("QUORUM", quorum); ("LOCAL_QUORUM", localQuorum);
   ("EACH_QUORUM", eachQuorum); ("SERIAL", serial);
   ("LOCAL_SERIAL", localSerial); ("LOCAL_ONE", localOne); ("ALL", all)].

(** The properties [mapping] inherits from [Object.prototype]. *)
Definition inheritedNames : list string :=
  ["constructor"; "hasOwnProperty"; "isPrototypeOf"; "propertyIsEnumerable";
   "toLocaleString"; "toString"; "valueOf"; "__proto__";
   "__defineGetter__"; "__defineSetter__"; "__lookupGetter__";
   "__lookupSetter__"].

(** What [mapping[key]] evaluates to: a level, a value inherited from
    the prototype, or [undefined]. *)
Inductive Found : Type :=
| Level (l : level)
| Inherited (property : string)
| Missing.

Fixpoint own (entries : list (string * level)) (key : string) : option level :=
  match entries with
  | [] => None
  | (k, l) :: rest => if String.eqb k key then Some l else own rest key
  end.

Definition getConsistencyLevel (consistencyStr : option string) : Found :=
  match consistencyStr with
  | None => Missing
  | Some s =>
      if negb (truthy (Str s)) then Missing
      else
        let upperConsistencyStr := toUpperCase s in
        match own mapping upperConsistencyStr with
        | Some l => Level l
        | None =>
            if includes inheritedNames upperConsistencyStr
            then Inherited upperConsistencyStr
            else Missing
        end
  end.

(** The key under which [mapping] holds a level. *)
Definition levelName (l : level) : string :=
  match l with
  | any => "ANY" | one => "ONE" | two => "TWO" | three => "THREE"
  | quorum => "QUORUM" | localQuorum => "LOCAL_QUORUM"
  | eachQuorum => "EACH_QUORUM" | serial => "SERIAL"
  | localSerial => "LOCAL_SERIAL" | localOne => "LOCAL_ONE" | all => "ALL"
  end.

(** A lower-case ASCII letter occurs in [s]. *)
Fixpoint hasLower (s : string) : bool :=
  match s with
  | EmptyString => false
  | String c rest => isLowerAscii c || hasLower rest
  end.

End Consistency.

(* ================================================================== *)
(** ** The default order of Array.prototype.sort *)

Module DefaultSort.
Import Text.

(** The comparison [sort()] uses when it is given no comparator, on
    strings: the order of the code units, which for names of the Basic
    Multilingual Plane is the order of their bytes. *)
Definition defaultCompare (x y : string) : Z :=
  match String.compare x y with
  | Lt => (-1)%Z
  | Eq => 0%Z
  | Gt => 1%Z
  end.

Definition sortStrings (l : list string) : list string :=
  ShowTableSchema.sort defaultCompare l.

Definition stringLe (x y : string) : Prop := String.leb x y = true.

End DefaultSort.

(* ================================================================== *)
(** ** ListKeyspacesTool.execute *)

Module ListKeyspaces.
Import Text Js DefaultSort.

(** The tool returns a sentence or the sorted names. *)
Inductive Output : Type :=
| Sentence (text : string)
| Names (keyspaces : list string).

(** [name => !name.startsWith('system') && name !== 'dse_system'] *)
Definition isUserKeyspace (name : string) : bool :=
  negb (startsWith "system" name) && negb (String.eqb name "dse_system").

(** [allKeyspaceNames] are the keys of [client.metadata.keyspaces]. *)
Definition execute (includeSystemKeyspaces : option bool)
  (allKeyspaceNames : list string) : Output :=
  let keyspaces :=
    match includeSystemKeyspaces with
    | Some true => allKeyspaceNames
    | _ => filter isUserKeyspace allKeyspaceNames
    end in
  if (List.length keyspaces =? 0)%nat then Sentence "No keyspaces found."
  else Names (sortStrings keyspaces).

End ListKeyspaces.

(* ================================================================== *)
(** ** ListTablesTool *)

(** A row of [SELECT table_name, flags FROM system_schema.tables];
    [flags] is a set of text, [None] when it is null. *)
Module FlaggedTableRow.
Record t : Type := { table_name : string; flags : option (list string) }.
End FlaggedTableRow.

Module ListTables.
Import Text Js DefaultSort.

Record TableInfo : Type := { name : string; isView : bool }.

Record TableResult : Type :=
  { success : bool;
    error : option string;
    tables : list string;
    viewCount : option nat;
    tableCount : option nat }.

(** The four queries the tool can send, as [client.execute] answers
    them; of the keyspace rows only the number is read, of the rows of
    the two plain queries only the name. *)
Record Catalog : Type :=
  { keyspaceResult : ShowTableSchema.QueryOutcome string;
    flaggedResult : ShowTableSchema.QueryOutcome FlaggedTableRow.t;
    fallbackResult : ShowTableSchema.QueryOutcome string;
    viewsResult : ShowTableSchema.QueryOutcome string }.

Definition checkKeyspaceExists (db : Catalog) : bool :=
  match keyspaceResult db with
  | ShowTableSchema.Rows rows => (0 <? List.length rows)%nat
  | ShowTableSchema.Rejected _ => false
  end.

(** [row => ({ name: row.table_name,
               isView: (row.flags || []).includes('materialized_view') })] *)
Definition tableInfo (row : FlaggedTableRow.t) : TableInfo :=
  {| name := FlaggedTableRow.table_name row;
     isView := includes (match FlaggedTableRow.flags row with
                         | Some flags => flags
                         | None => []
                         end) "materialized_view" |}.

(** Strategy 2 and the last [catch] of [getTables]. *)
Definition strategy2 (db : Catalog) (includeViews : bool) : TableResult :=
  match fallbackResult db with
  | ShowTableSchema.Rejected message =>
      {| success := false; error := Some message; tables := [];
         viewCount := None; tableCount := None |}
  | ShowTableSchema.Rows [] =>
      {| success := false; error := None; tables := [];
         viewCount := None; tableCount := None |}
  | ShowTableSchema.Rows tables =>
      let views :=
        if includeViews then
          match viewsResult db with
          | ShowTableSchema.Rows rows => rows
          | ShowTableSchema.Rejected _ => []
          end
        else [] in
      {| success := true; error := None;
         tables := sortStrings (tables ++ views)%list;
         viewCount := Some (List.length views);
         tableCount := Some (List.length tables) |}
  end.

Definition getTables (db : Catalog) (includeViews : bool) : TableResult :=
  match flaggedResult db with
  | ShowTableSchema.Rows [] =>
      {| success := false; error := None; tables := [];
         viewCount := None; tableCount := None |}
  | ShowTableSchema.Rows rows =>
      let tables := map tableInfo rows in
      let tables :=
        if negb includeViews then filter (fun table => negb (isView table)) tables
        else tables in
      {| success := true; error := None;
         tables := sortStrings (map name tables);
         viewCount := Some (List.length (filter isView tables));
         tableCount :=
           Some (List.length (filter (fun t => negb (isView t)) tables)) |}
  | ShowTableSchema.Rejected _ => strategy2 db includeViews
  end.

Record Count : Type := { total : nat; countTables : nat; countViews : nat }.

(** The three objects [execute] returns from its [try] block. *)
Inductive Output : Type :=
| KeyspaceNotFound (error : string)
| NothingFound (message : string)
| Listing (keyspace : string) (tables : list string) (count : Count).

(** [n || fallback] on an optional number. *)
Definition orElse (n : option nat) (fallback : nat) : nat :=
  match n with
  | Some (S m) => S m
  | _ => fallback
  end.

(** [execute].  Neither helper lets an exception out, so the [catch]
    clause with the legacy query is never entered. *)
Definition execute (keyspaceName : string) (includeViews : option bool)
  (db : Catalog) : Output :=
  let wanted := match includeViews with Some true => true | _ => false end in
  if negb (checkKeyspaceExists db) then
    KeyspaceNotFound ("Keyspace '" ++ keyspaceName ++ "' not found.")
  else
    let tablesResult := getTables db wanted in
    if negb (success tablesResult)
       || (List.length (tables tablesResult) =? 0)%nat then
      NothingFound ("No " ++ (if wanted then "tables or views" else "tables")
                      ++ " found in keyspace '" ++ keyspaceName ++ "'.")
    else
      Listing keyspaceName (tables tablesResult)
        {| total := List.length (tables tablesResult);
           countTables := orElse (tableCount tablesResult)
                                 (List.length (tables tablesResult));
           countViews := orElse (viewCount tablesResult) 0 |}.

End ListTables.
(* ================================================================== *)
(** ** Well-formed type descriptors and the clauses of a statement *)

Module Descriptors.
Import Text Js.

(** The raw descriptors the resolver takes apart, as a syntax: a plain
    name, an object with a name, and the four structural shapes, nested
    at will. *)
Inductive Raw : Type :=
| Plain (name : string)
| Named (name : string)
| MapOf (keyType valueType : Raw)
| ListOf (elementType : Raw)
| SetOf (elementType : Raw)
| TupleOf (types : list Raw).

(** The JavaScript value of a descriptor. *)
Fixpoint encode (raw : Raw) : value :=
  match raw with
  | Plain name => Str name
  | Named name => Obj [("name", Str name)]
  | MapOf keyType valueType =>
      Obj [("info", Obj [("keyType", encode keyType);
                         ("valueType", encode valueType)])]
  | ListOf elementType => Obj [("info", Obj [("elementType", encode elementType)])]
  | SetOf elementType => Obj [("info", Arr [encode elementType])]
  | TupleOf types => Obj [("info", Obj [("types", Arr (map encode types))])]
  end.

(** The type name in CQL notation. *)
Fixpoint render (raw : Raw) : string :=
  match raw with
  | Plain name => name
  | Named name => name
  | MapOf keyType valueType =>
      "map<" ++ render keyType ++ ", " ++ render valueType ++ ">"
  | ListOf elementType => "list<" ++ render elementType ++ ">"
  | SetOf elementType => "set<" ++ render elementType ++ ">"
  | TupleOf types => "tuple<" ++ join ", " (map render types) ++ ">"
  end.

(** Every name of the descriptor is a non-empty string. *)
Fixpoint wellNamed (raw : Raw) : bool :=
  match raw with
  | Plain name => negb (String.eqb name EmptyString)
  | Named name => negb (String.eqb name EmptyString)
  | MapOf keyType valueType => wellNamed keyType && wellNamed valueType
  | ListOf elementType => wellNamed elementType
  | SetOf elementType => wellNamed elementType
  | TupleOf types => forallb wellNamed types
  end.

(** The number of calls of the resolver that are open at once while
    the descriptor is resolved: one for the descriptor and, inside it,
    those of its deepest part. *)
Fixpoint nesting (raw : Raw) : nat :=
  match raw with
  | Plain _ | Named _ => 1
  | MapOf keyType valueType => S (Nat.max (nesting keyType) (nesting valueType))
  | ListOf elementType => S (nesting elementType)
  | SetOf elementType => S (nesting elementType)
  | TupleOf types => S (list_max (map nesting types))
  end.

End Descriptors.

Module Clauses.
Import Text Js ShowTableSchema.

(** The PRIMARY KEY clause with the separator before it: nothing
    without key columns; one partition key bare, several in
    parentheses; the clustering key names after a comma. *)
Definition primaryKeyClause (partitionKeys : list string)
  (clusteringKeys : list ClusteringKey) : string :=
  match partitionKeys, clusteringKeys with
  | [], [] => EmptyString
  | _, _ =>
      "," ++ LF ++ "  PRIMARY KEY ("
      ++ match partitionKeys with
         | [] => EmptyString
         | [key] => key
         | _ => "(" ++ join ", " partitionKeys ++ ")"
         end
      ++ match clusteringKeys with
         | [] => EmptyString
         | _ => ", " ++ join ", " (map name clusteringKeys)
         end
      ++ ")"
  end.

Definition clusteringOrderClause (clusteringKeys : list ClusteringKey) : string :=
  match clusteringKeys with
  | [] => EmptyString
  | _ =>
      " WITH CLUSTERING ORDER BY ("
      ++ join ", " (map (fun key => name key ++ " " ++ order key) clusteringKeys)
      ++ ")"
  end.

(** The word that introduces the storage options. *)
Definition optionsIntroducer (clusteringKeys : list ClusteringKey) : string :=
  match clusteringKeys with [] => " WITH" | _ => " AND" end.

End Clauses.

Module DisplayNames.
Import Text.

(** An underscore followed by a lower-case letter, the pattern that
    [snakeToCamel] replaces, occurs in [s]. *)
Fixpoint hasSnake (s : string) : bool :=
  match s with
  | EmptyString => false
  | String c rest =>
      match rest with
      | String letter _ => (Ascii.eqb c "_" && isLowerAscii letter) || hasSnake rest
      | EmptyString => false
      end
  end.

Definition headIsLower (s : string) : bool :=
  match s with
  | String c _ => isLowerAscii c
  | EmptyString => false
  end.

End DisplayNames.
(* ================================================================== *)
(** ** cassandra-client: the connection held by the module *)

Module Connection.
Import Text Js.

(** [haystack.includes(needle)] on strings. *)
Fixpoint includesText (needle haystack : string) : bool :=
  String.prefix needle haystack
  || match haystack with
     | EmptyString => false
     | String _ rest => includesText needle rest
     end.

Record QueryOptions : Type :=
  { consistency : option Consistency.level;
    serialConsistency : option Consistency.level;
    fetchSize : option Z;
    prepare : option bool }.

Record SocketOptions : Type :=
  { connectTimeout : option Z;
    readTimeout : option Z;
    keepAlive : option bool }.

(** [CassandraConnectionParams]; [None] is a field that is not there. *)
Record CassandraConnectionParams : Type :=
  { contactPoints : list string;
    localDataCenter : string;
    keyspace : option string;
    username : option string;
    password : option string;
    port : option Z;
    queryOptions : option QueryOptions;
    socketOptions : option SocketOptions;
    pooling : option value }.

(** The options object handed to [new Client]. *)
Module ClientOptions.
Record t : Type :=
  { contactPoints : list string;
    localDataCenter : string;
    keyspace : option string;
    authProvider : option (string * string);
    port : Z;
    consistency : Consistency.level;
    serialConsistency : option Consistency.level;
    fetchSize : Z;
    prepare : bool;
    connectTimeout : option Z;
    readTimeout : option Z;
    keepAlive : bool;
    pooling : option value }.
End ClientOptions.

(** A client is known by the options it was made with. *)
Definition Client : Type := ClientOptions.t.

(** A point in time. *)
Definition Date : Type := Z.

(** An error of the driver: its [message] and [code] when it has them. *)
Record DriverError : Type :=
  { message : option string; code : option string }.

(** [${error.message}] *)
Definition messageText (e : DriverError) : string :=
  match message e with Some m => m | None => "undefined" end.

(** The three variables of the module. *)
Record State : Type :=
  { client : option Client;
    currentConnectionConfig : option CassandraConnectionParams;
    connectionTime : option Date }.

Definition initial : State :=
  {| client := None; currentConnectionConfig := None; connectionTime := None |}.

Definition disconnected : State := initial.

(** What a call gives back: a value, or the message of the [Error] it
    throws. *)
Inductive Reply (A : Type) : Type :=
| Returned (result : A)
| Thrown (message : string).
Arguments Returned {A} result.
Arguments Thrown {A} message.

Definition getCassandraClient (s : State) : Reply Client :=
  match client s with
  | None => Thrown "Cassandra client is not initialized. Call connect first."
  | Some c => Returned c
  end.

Record ConnectionConfig : Type :=
  { configContactPoints : list string;
    configKeyspace : option string;
    configLocalDataCenter : string }.

Record ConnectionStatus : Type :=
  { isConnected : bool;
    config : option ConnectionConfig;
    statusConnectionTime : option Date }.

Definition getConnectionStatus (s : State) : ConnectionStatus :=
  match client s with
  | None => {| isConnected := false; config := None;
               statusConnectionTime := None |}
  | Some _ =>
      {| isConnected := true;
         config :=
           match currentConnectionConfig s with
           | Some c => Some {| configContactPoints := contactPoints c;
                               configKeyspace := keyspace c;
                               configLocalDataCenter := localDataCenter c |}
           | None => None
           end;
         statusConnectionTime := connectionTime s |}
  end.

(** [a && b ? ... : undefined] on two optional strings. *)
Definition bothGiven (a b : option string) : option (string * string) :=
  match a, b with
  | Some x, Some y =>
      if truthy (Str x) && truthy (Str y) then Some (x, y) else None
  | _, _ => None
  end.

(** [params.port || 9042] *)
Definition portOf (params : CassandraConnectionParams) : Z :=
  match port params with
  | Some p => if truthy (Num p) then p else 9042%Z
  | None => 9042%Z
  end.

Definition clientOptions (params : CassandraConnectionParams) : ClientOptions.t :=
  let query := queryOptions params in
  let socket := socketOptions params in
  {| ClientOptions.contactPoints := contactPoints params;
     ClientOptions.localDataCenter := localDataCenter params;
     ClientOptions.keyspace := keyspace params;
     ClientOptions.authProvider := bothGiven (username params) (password params);
     ClientOptions.port := portOf params;
     ClientOptions.consistency :=
       match query with
       | Some q => match consistency q with
                   | Some c => c
                   | None => Consistency.localOne
                   end
       | None => Consistency.localOne
       end;
     ClientOptions.serialConsistency :=
       match query with Some q => serialConsistency q | None => None end;
     ClientOptions.fetchSize :=
       match query with
       | Some q => match fetchSize q with Some n => n | None => 1000%Z end
       | None => 1000%Z
       end;
     ClientOptions.prepare :=
       match query with
       | Some q => match prepare q with Some b => b | None => true end
       | None => true
       end;
     ClientOptions.connectTimeout :=
       match socket with Some o => connectTimeout o | None => None end;
     ClientOptions.readTimeout :=
       match socket with Some o => readTimeout o | None => None end;
     ClientOptions.keepAlive :=
       match socket with
       | Some o => match keepAlive o with Some b => b | None => true end
       | None => true
       end;
     ClientOptions.pooling := pooling params |}.

(** What the driver does during one call of [connectToCassandra]:
    whether [new Client] throws, whether [client.connect()] is
    rejected, and the time.  (The shutdown of a previous client and
    the [USE] statement are awaited too; their errors are logged and
    change nothing.) *)
Record ConnectEvents : Type :=
  { construction : option DriverError;
    connection : option DriverError;
    now : Date }.

(** [error.code === name] *)
Definition codeIs (e : DriverError) (name : string) : bool :=
  match code e with
  | Some c => String.eqb c name
  | None => false
  end.

(** [error.message?.includes(text)] *)
Definition messageIncludes (e : DriverError) (text : string) : bool :=
  match message e with
  | Some m => includesText text m
  | None => false
  end.

(** The text of the error [connectToCassandra] throws. *)
Definition connectError (params : CassandraConnectionParams)
  (e : DriverError) : string :=
  let errorMessage := "Failed to connect to Cassandra: " ++ messageText e in
  if codeIs e "ECONNREFUSED" then
    errorMessage ++ " - Check that Cassandra is running at "
      ++ join "," (contactPoints params) ++ ":"
      ++ NumberToString (portOf params)
      ++ " and network connectivity is available"
  else if codeIs e "ETIMEDOUT" then
    errorMessage
      ++ " - Connection timed out. Check network connectivity and firewall settings"
  else if messageIncludes e "authentication" then
    errorMessage ++ " - Authentication failed. Check username and password"
  else errorMessage.

Definition connectToCassandra (s : State) (params : CassandraConnectionParams)
  (events : ConnectEvents) : State * Reply unit :=
  match construction events with
  | Some e => (disconnected, Thrown (connectError params e))
  | None =>
      match connection events with
      | Some e => (disconnected, Thrown (connectError params e))
      | None =>
          ({| client := Some (clientOptions params);
              currentConnectionConfig := Some params;
              connectionTime := Some (now events) |},
           Returned tt)
      end
  end.

(** [shutdown] is what [client.shutdown()] does, when there is a
    client. *)
Definition disconnectFromCassandra (s : State) (shutdown : option DriverError)
  : State * Reply unit :=
  match client s with
  | Some _ =>
      (disconnected,
       match shutdown with
       | None => Returned tt
       | Some e =>
           Thrown ("Failed to disconnect from Cassandra: " ++ messageText e)
       end)
  | None => (s, Returned tt)
  end.

Definition withKeyspace (params : CassandraConnectionParams) (name : string)
  : CassandraConnectionParams :=
  {| contactPoints := contactPoints params;
     localDataCenter := localDataCenter params;
     keyspace := Some name;
     username := username params;
     password := password params;
     port := port params;
     queryOptions := queryOptions params;
     socketOptions := socketOptions params;
     pooling := pooling params |}.

(** [use] is what executing the [USE] statement does. *)
Definition useKeyspace (s : State) (name : string) (use : option DriverError)
  : State * Reply unit :=
  match client s with
  | None =>
      (s, Thrown "Cassandra client is not initialized. Call connect first.")
  | Some _ =>
      match use with
      | None =>
          ({| client := client s;
              currentConnectionConfig :=
                match currentConnectionConfig s with
                | Some c => Some (withKeyspace c name)
                | None => None
                end;
              connectionTime := connectionTime s |},
           Returned tt)
      | Some e =>
          (s, Thrown ("Failed to use keyspace " ++ name ++ ": " ++ messageText e))
      end
  end.

(** [ConnectTool.execute] and [DisconnectTool.execute]: the answer and
    the state they leave. *)
Definition connectTool (s : State) (input : CassandraConnectionParams)
  (events : ConnectEvents) : State * string :=
  match connectToCassandra s input events with
  | (s', Returned _) => (s', "Successfully connected to Cassandra.")
  | (s', Thrown m) => (s', "Failed to connect: " ++ m)
  end.

Definition disconnectTool (s : State) (shutdown : option DriverError)
  : State * string :=
  match disconnectFromCassandra s shutdown with
  | (s', Returned _) => (s', "Successfully disconnected from Cassandra.")
  | (s', Thrown m) => (s', "Failed to disconnect: " ++ m)
  end.

(** The calls that change the module's variables, each with what the
    driver does during it: the two tools and [useKeyspace].  A sequence
    of calls is run one call after the other. *)
Inductive Call : Type :=
| Connect (params : CassandraConnectionParams) (events : ConnectEvents)
| Disconnect (shutdown : option DriverError)
| UseKeyspace (name : string) (use : option DriverError).

Definition step (s : State) (call : Call) : State :=
  match call with
  | Connect params events => fst (connectTool s params events)
  | Disconnect shutdown => fst (disconnectTool s shutdown)
  | UseKeyspace name use => fst (useKeyspace s name use)
  end.

Definition run (calls : list Call) : State := fold_left step calls initial.

(** What holds of the three variables between calls. *)
Definition consistent (s : State) : Prop :=
  match client s with
  | None => currentConnectionConfig s = None /\ connectionTime s = None
  | Some c =>
      exists params time,
        currentConnectionConfig s = Some params
        /\ connectionTime s = Some time
        /\ ClientOptions.contactPoints c = contactPoints params
        /\ ClientOptions.localDataCenter c = localDataCenter params
  end.

End Connection.
(* ================================================================== *)
(** ** More sample inputs *)

Module MoreSamples.
Import Text Js.

Definition eventKeys : list KeyRow.t :=
  [ {| KeyRow.column_name := "seq"; KeyRow.kind := "clustering";
       KeyRow.position := 1; KeyRow.clustering_order := Some "asc" |};
    {| KeyRow.column_name := "id"; KeyRow.kind := "partition_key";
       KeyRow.position := 0; KeyRow.clustering_order := Some "none" |};
    {| KeyRow.column_name := "ts"; KeyRow.kind := "clustering";
       KeyRow.position := 0; KeyRow.clustering_order := Some "desc" |} ].

Definition eventColumns : list DescribeColumnRow.t :=
  [ {| DescribeColumnRow.column_name := "id";
       DescribeColumnRow.type := Str "uuid";
       DescribeColumnRow.position := Num 0 |};
    {| DescribeColumnRow.column_name := "seq";
       DescribeColumnRow.type := Str "int";
       DescribeColumnRow.position := Num 1 |};
    {| DescribeColumnRow.column_name := "ts";
       DescribeColumnRow.type := Str "timestamp";
       DescribeColumnRow.position := Num 0 |};
    {| DescribeColumnRow.column_name := "value";
       DescribeColumnRow.type := Str "double";
       DescribeColumnRow.position := Num (-1) |} ].

Definition selectInput : SelectRows.Input :=
  {| SelectRows.keyspaceName := "ks";
     SelectRows.tableName := "events";
     SelectRows.selectColumns := Some ["id"; "value"];
     SelectRows.whereClauses := Some [("id", Str "42"); ("seq", Num 7)];
     SelectRows.orderBy :=
       Some (SelectRows.Single {| SelectRows.column := "ts";
                                  SelectRows.order := SelectRows.DESC |});
     SelectRows.limit := Some 10%Z;
     SelectRows.allowFiltering := Some true |}.

Definition onlyViews : ListTables.Catalog :=
  {| ListTables.keyspaceResult := ShowTableSchema.Rows ["ks"];
     ListTables.flaggedResult :=
       ShowTableSchema.Rows
         [ {| FlaggedTableRow.table_name := "by_user";
              FlaggedTableRow.flags := Some ["compound"; "materialized_view"] |};
           {| FlaggedTableRow.table_name := "by_day";
              FlaggedTableRow.flags := Some ["materialized_view"] |} ];
     ListTables.fallbackResult := ShowTableSchema.Rows [];
     ListTables.viewsResult := ShowTableSchema.Rows [] |}.

Definition tablesAndViews : ListTables.Catalog :=
  {| ListTables.keyspaceResult := ShowTableSchema.Rows ["ks"];
     ListTables.flaggedResult :=
       ShowTableSchema.Rows
         [ {| FlaggedTableRow.table_name := "users";
              FlaggedTableRow.flags := Some ["compound"] |};
           {| FlaggedTableRow.table_name := "by_day";
              FlaggedTableRow.flags := Some ["materialized_view"] |};
           {| FlaggedTableRow.table_name := "events";
              FlaggedTableRow.flags := None |} ];
     ListTables.fallbackResult := ShowTableSchema.Rows [];
     ListTables.viewsResult := ShowTableSchema.Rows [] |}.

Definition nestedType : Descriptors.Raw :=
  Descriptors.MapOf (Descriptors.Plain "text")
    (Descriptors.TupleOf
       [Descriptors.ListOf (Descriptors.Named "address");
        Descriptors.SetOf (Descriptors.Plain "uuid");
        Descriptors.TupleOf []]).

End MoreSamples.

(* ================================================================== *)
(** ** Sample catalog rows *)

Module Samples.
Import Text Js ShowTableSchema.

Definition idColumn : ColumnRow.t :=
  {| ColumnRow.column_name := "id"; ColumnRow.type := "uuid" |}.

Definition sampleTableRow : TableRow :=
  [("keyspace_name", Str "ks"); ("table_name", Str "t");
   ("comment", Str "hello");
   ("caching", Obj [("keys", Str "ALL"); ("rows_per_partition", Str "NONE")]);
   ("compaction", Null);
   ("gc_grace_seconds", Num 864000);
   ("flags", Arr [Str "compound"])].

Definition bareTableRow : TableRow :=
  [("keyspace_name", Str "ks"); ("table_name", Str "t"); ("comment", Null)].

(** A row of [system_schema.tables] as Cassandra 3 fills it. *)
Definition fullTableRow : TableRow :=
  [("keyspace_name", Str "ks"); ("table_name", Str "t");
   ("bloom_filter_fp_chance", Num (Dec false 1 2));
   ("caching", Obj [("keys", Str "ALL"); ("rows_per_partition", Str "NONE")]);
   ("cdc", Null);
   ("comment", Str "hello");
   ("compaction",
    Obj [("class",
          Str "org.apache.cassandra.db.compaction.SizeTieredCompactionStrategy");
         ("max_threshold", Str "32"); ("min_threshold", Str "4")]);
   ("compression",
    Obj [("chunk_length_in_kb", Str "64");
         ("class", Str "org.apache.cassandra.io.compress.LZ4Compressor")]);
   ("crc_check_chance", Num 1);
   ("dclocal_read_repair_chance", Num (Dec false 1 1));
   ("default_time_to_live", Num 0);
   ("extensions", Obj []);
   ("flags", Arr [Str "compound"]);
   ("gc_grace_seconds", Num 864000);
   ("id", Str "5a1c395e-b41f-11e5-9f22-ba0be0483c18");
   ("max_index_interval", Num 2048);
   ("memtable_flush_period_in_ms", Num 0);
   ("min_index_interval", Num 128);
   ("read_repair_chance", Null);
   ("speculative_retry", Str "99PERCENTILE")].

(** A code table whose names have capital letters. *)
Definition capitalDataTypes : list (string * Z) :=
  [("ASCII", 1); ("BigInt", 2); ("VarChar", 13); ("TimeUUID", 15)]%Z.

Definition twoPartitionKeys : list KeyRow.t :=
  [ {| KeyRow.column_name := "b"; KeyRow.kind := "partition_key";
       KeyRow.position := 1; KeyRow.clustering_order := Some "none" |};
    {| KeyRow.column_name := "a"; KeyRow.kind := "partition_key";
       KeyRow.position := 0; KeyRow.clustering_order := Some "none" |} ].

Definition onlyClusteringKeys : list KeyRow.t :=
  [ {| KeyRow.column_name := "ts"; KeyRow.kind := "clustering";
       KeyRow.position := 0; KeyRow.clustering_order := Some "desc" |} ].

End Samples.

(* ================================================================== *)
(** * Properties of the type resolver *)

Module ResolverFacts.
Import Text Js DescribeTable.

Lemma depth_lookup props key x :
  lookup props key = Some x ->
  (depth x <= list_max (map (fun p => depth (snd p)) props))%nat.
Proof.
  induction props as [|[k v] rest IH]; simpl; [discriminate|].
  destruct (String.eqb k key).
  - intros [= ->]. lia.
  - intros H. specialize (IH H). lia.
Qed.

Lemma depth_get v key : (depth (get v key) <= pred (depth v))%nat.
Proof.
  destruct v; simpl; try lia.
  destruct (lookup props key) eqn:E; simpl; [|lia].
  now apply depth_lookup in E.
Qed.

Lemma depth_elements v x :
  In x (elements v) -> (depth x <= pred (depth v))%nat.
Proof.
  destruct v; simpl; try tauto.
  induction elems as [|y rest IH]; simpl; [tauto|].
  intros [->|H]; [lia|]. specialize (IH H). lia.
Qed.

Lemma depth_first v : (depth (first v) <= pred (depth v))%nat.
Proof.
  destruct v; simpl; try lia.
  destruct elems; simpl; lia.
Qed.

Section Unfolding.
Variable dataTypes : list (string * Z).

Lemma tryBlock_ext (f g : value -> value) type :
  (forall w, (depth w < depth type)%nat -> f w = g w) ->
  tryBlock dataTypes f type = tryBlock dataTypes g type.
Proof.
  intros H. destruct type; try reflexivity.
  assert (Hsub : forall a b, f (get (get (Obj props) a) b) = g (get (get (Obj props) a) b)).
  { intros a b. apply H.
    pose proof (depth_get (get (Obj props) a) b).
    pose proof (depth_get (Obj props) a). simpl depth in *. lia. }
  assert (Hfirst : f (first (get (Obj props) "info")) = g (first (get (Obj props) "info"))).
  { apply H. pose proof (depth_first (get (Obj props) "info")).
    pose proof (depth_get (Obj props) "info"). simpl depth in *. lia. }
  assert (Hmap : map f (elements (get (get (Obj props) "info") "types"))
                 = map g (elements (get (get (Obj props) "info") "types"))).
  { apply map_ext_in. intros w Hw. apply H.
    apply depth_elements in Hw.
    pose proof (depth_get (get (Obj props) "info") "types").
    pose proof (depth_get (Obj props) "info"). simpl depth in *. lia. }
  unfold tryBlock. cbv zeta.
  rewrite !Hsub, Hfirst, Hmap. reflexivity.
Qed.

Lemma body_ext (f g : value -> value) type :
  (forall w, (depth w < depth type)%nat -> f w = g w) ->
  body dataTypes f type = body dataTypes g type.
Proof.
  intros H. unfold body. now rewrite (tryBlock_ext f g type H).
Qed.

Lemma fuel_stable n : forall m type,
  (depth type < n)%nat -> (depth type < m)%nat ->
  getColumnTypeString_fuel dataTypes n type
  = getColumnTypeString_fuel dataTypes m type.
Proof.
  induction n as [|n IH]; intros m type Hn Hm; [lia|].
  destruct m as [|m]; [lia|]. simpl.
  apply body_ext. intros w Hw. apply IH; lia.
Qed.

(** The model satisfies the recursive equation of the source. *)
Lemma getColumnTypeString_eq type :
  getColumnTypeString dataTypes type
  = body dataTypes (getColumnTypeString dataTypes) type.
Proof.
  unfold getColumnTypeString at 1. simpl.
  apply body_ext. intros w Hw. apply fuel_stable; lia.
Qed.

End Unfolding.
End ResolverFacts.
Module ResolverClaims.
Import Text Js DescribeTable ResolverFacts.

Lemma toLowerCase_nonempty s : s <> EmptyString -> toLowerCase s <> EmptyString.
Proof. destruct s; [congruence|discriminate]. Qed.

Lemma truthy_Str s : truthy (Str s) = true <-> s <> EmptyString.
Proof.
  simpl. rewrite negb_true_iff. split.
  - intros H ->. discriminate.
  - intros H. destruct s; [congruence|reflexivity].
Qed.

Lemma lowerAscii_canonical c : lowerAscii c = CanonicalLowercase.letter c.
Proof.
  destruct c as [[] [] [] [] [] [] [] []]; reflexivity.
Qed.

Lemma toLowerCase_canonical s : toLowerCase s = CanonicalLowercase.lowercase s.
Proof.
  induction s as [|c rest IH]; [reflexivity|].
  cbn [toLowerCase mapString CanonicalLowercase.lowercase].
  rewrite lowerAscii_canonical. f_equal. exact IH.
Qed.

Section Claims.
Variable dataTypes : list (string * Z).

Lemma resolve_plain s : truthy (Str s) = true -> getColumnTypeString dataTypes (Str s) = Str s.
Proof.
  intros H. rewrite getColumnTypeString_eq. unfold body. rewrite H. reflexivity.
Qed.

Lemma resolve_empty : getColumnTypeString dataTypes (Str EmptyString) = Str "unknown".
Proof. reflexivity. Qed.

Lemma nameOfCode_In typeCode name :
  nameOfCode dataTypes typeCode = Some name ->
  exists entry, In entry dataTypes /\ name = toLowerCase (fst entry).
Proof.
  unfold nameOfCode. destruct (find _ dataTypes) as [entry|] eqn:E; [|discriminate].
  intros [= <-]. apply find_some in E. exists entry. tauto.
Qed.

(** C4: an object with a numeric [code] field resolves to the name of
    the first entry of the code table whose code is that number, in the
    canonical lower case of the alphabet, and to [type_<code>], the
    code written as [Number::toString] writes it, when the table has no
    such entry, whatever other fields ([name], [info]) the object
    carries: the code test comes before the name, map, list, set and
    tuple tests.  A plain non-empty string is returned as it is, before
    any of these tests.  The names of the table are ASCII, as those of
    the driver are: there [toLowerCase] is the lower case of the
    alphabet. *)
Theorem code_field_priority props (n : number) :
  Forall (fun entry => isAsciiText (fst entry) = true) dataTypes ->
  lookup props "code" = Some (Num n) ->
  getColumnTypeString dataTypes (Obj props)
  = Str (match find (fun entry => match n with
                                  | Int z => (snd entry =? z)%Z
                                  | _ => false
                                  end) dataTypes with
         | Some entry => CanonicalLowercase.lowercase (fst entry)
         | None => "type_" ++ NumberToString n
         end)
  /\ (forall s, truthy (Str s) = true -> getColumnTypeString dataTypes (Str s) = Str s).
Proof.
  intros _ H. split; [|apply resolve_plain].
  rewrite getColumnTypeString_eq. unfold body, tryBlock. simpl.
  rewrite H. simpl. unfold nameOfCode, strictEqNum.
  destruct (find _ dataTypes) as [entry|].
  - now rewrite toLowerCase_canonical.
  - reflexivity.
Qed.

(** C2, as the code has it: a descriptor of no recognized shape never
    makes the resolver fail, and resolves to ['unknown'] when it is
    falsy or when its conversion to a string throws, and to [String] of
    the descriptor otherwise (['[object Object]'] for a plain object,
    the digits of a number). *)
Theorem unrecognized_shape type :
  unrecognized type = true ->
  getColumnTypeString dataTypes type
  = Str (if truthy type
         then match ToString type with Some s => s | None => "unknown" end
         else "unknown").
Proof.
  intros H. rewrite getColumnTypeString_eq. unfold body.
  destruct (truthy type) eqn:T; simpl; [|reflexivity].
  unfold unrecognized, hasCode, hasName, isMapShape, isListShape, isSetShape, isTupleShape in H.
  repeat rewrite andb_true_iff in H. repeat rewrite negb_true_iff in H.
  destruct H as [[[[[[H1 H2] H3] H4] H5] H6] H7].
  rewrite negb_false_iff in H2.
  unfold tryBlock. rewrite H1, H2, H3, H4, H5, H6, H7, T. simpl.
  destruct (String.eqb (typeof type) "object"); destruct (ToString type); reflexivity.
Qed.

Lemma resolvable_result type :
  Forall (fun entry => fst entry <> EmptyString) dataTypes ->
  resolvableShape type = true ->
  exists s, getColumnTypeString dataTypes type = Str s /\ s <> EmptyString.
Proof.
  intros Hdt H. rewrite getColumnTypeString_eq.
  destruct type; try discriminate.
  - unfold body. destruct (truthy (Str s)) eqn:T; simpl.
    + exists s. split; [reflexivity|]. now apply truthy_Str.
    + eexists; split; [reflexivity|discriminate].
  - unfold body, tryBlock. cbv zeta.
    change (truthy (Obj props)) with true. 
    change (typeof (Obj props)) with "object". cbn [negb andb String.eqb Ascii.eqb Bool.eqb].
    unfold resolvableShape, hasCode, nameIsText, hasName in H.
    destruct (isUndefined (get (Obj props) "code")) eqn:C; cbn [negb].
    + cbn [negb orb] in H.
      destruct (truthy (get (Obj props) "name")) eqn:N.
      * destruct (get (Obj props) "name") eqn:G; try discriminate.
        exists s. split; [reflexivity|]. now apply truthy_Str.
      * cbn [ToString].
        repeat match goal with
               | |- context [lookup props "toString"] =>
                   destruct (lookup props "toString")
               | |- context [if ?c then _ else _] => destruct c
               | |- context [match ToString ?x with _ => _ end] =>
                   destruct (ToString x)
               | |- context [match joinValues ?a ?b with _ => _ end] =>
                   destruct (joinValues a b)
               end; eexists; (split; [reflexivity|simpl; discriminate]).
    + destruct (nameOfCode dataTypes (get (Obj props) "code")) as [name|] eqn:E.
      * exists name. split; [reflexivity|].
        apply nameOfCode_In in E. destruct E as [entry [Hin ->]].
        apply toLowerCase_nonempty. rewrite Forall_forall in Hdt. now apply Hdt.
      * destruct (ToString (get (Obj props) "code"));
          eexists; (split; [reflexivity|simpl; discriminate]).
Qed.

(** C8: on a descriptor of one of the resolvable shapes, resolving the
    resolved name again changes nothing.  The driver's table is assumed
    to have no entry with an empty name. *)
Theorem resolve_idempotent raw :
  Forall (fun entry => fst entry <> EmptyString) dataTypes ->
  resolvableShape raw = true ->
  getColumnTypeString dataTypes (getColumnTypeString dataTypes raw)
  = getColumnTypeString dataTypes raw.
Proof.
  intros Hdt H. destruct (resolvable_result raw Hdt H) as [s [-> Hs]].
  apply resolve_plain. now apply truthy_Str.
Qed.

End Claims.
End ResolverClaims.
(* ================================================================== *)
(** * Strings and sorting *)

Module TextFacts.
Import Text.

Lemma append_nil_r s : s ++ EmptyString = s.
Proof. induction s; simpl; congruence. Qed.

Lemma append_assoc s1 s2 s3 : (s1 ++ s2) ++ s3 = s1 ++ (s2 ++ s3).
Proof. induction s1; simpl; congruence. Qed.

Lemma mapString_length f s : String.length (mapString f s) = String.length s.
Proof. induction s; simpl; congruence. Qed.

Lemma toUpperCase_empty s : toUpperCase s = EmptyString <-> s = EmptyString.
Proof. destruct s; simpl; split; intros H; try reflexivity; discriminate H. Qed.

Lemma occurs_append c s1 s2 :
  occurs c (s1 ++ s2) = occurs c s1 || occurs c s2.
Proof.
  induction s1; simpl; [reflexivity|]. rewrite IHs1. now rewrite orb_assoc.
Qed.

(** After the global replace no double quote is left. *)
Lemma replaceQuotes_clean s : occurs dquote (replaceQuotes s) = false.
Proof.
  unfold replaceQuotes.
  induction s as [|c s IH]; cbn [mapString occurs]; [reflexivity|]. rewrite IH.
  destruct (Ascii.eqb c dquote) eqn:E; [reflexivity|].
  rewrite orb_false_r. rewrite Ascii.eqb_sym. exact E.
Qed.

Lemma replaceQuotes_append s1 s2 :
  replaceQuotes (s1 ++ s2) = replaceQuotes s1 ++ replaceQuotes s2.
Proof. unfold replaceQuotes. induction s1; simpl; congruence. Qed.

Lemma replaceQuotes_join sep l :
  replaceQuotes (join sep l) = join (replaceQuotes sep) (map replaceQuotes l).
Proof.
  induction l as [|x rest IH]; [reflexivity|].
  destruct rest as [|y rest']; [reflexivity|].
  change (join sep (x :: y :: rest')) with (x ++ sep ++ join sep (y :: rest')).
  rewrite !replaceQuotes_append, IH. reflexivity.
Qed.

Lemma get_mapString f s : forall i,
  String.get i (mapString f s) = option_map f (String.get i s).
Proof.
  induction s as [|c rest IH]; intros i; [reflexivity|].
  destruct i as [|i]; [reflexivity|]. cbn [mapString String.get]. apply IH.
Qed.

Lemma includes_In l key : includes l key = true <-> In key l.
Proof.
  unfold includes. rewrite existsb_exists. split.
  - intros [x [Hin Heq]]. apply String.eqb_eq in Heq. now subst.
  - intros H. exists key. split; [exact H|apply String.eqb_refl].
Qed.

End TextFacts.

Module SortFacts.
Import ShowTableSchema.

Section ByKey.
Context {A : Type} (key : A -> Z).

Lemma insert_perm x l : Permutation (insert (compareBy key) x l) (x :: l).
Proof.
  induction l as [|y rest IH]; simpl; [reflexivity|].
  destruct ((compareBy key) x y <=? 0)%Z; [reflexivity|].
  rewrite IH. apply perm_swap.
Qed.

Lemma sort_perm l : Permutation (sort (compareBy key) l) l.
Proof.
  induction l as [|x rest IH]; simpl; [reflexivity|].
  rewrite insert_perm. now constructor.
Qed.

Lemma insert_sorted x l :
  StronglySorted (fieldLe key) l -> StronglySorted (fieldLe key) (insert (compareBy key) x l).
Proof.
  induction 1 as [|y rest Hs IH Hy]; simpl.
  - repeat constructor.
  - unfold compareBy at 1. destruct (key x - key y <=? 0)%Z eqn:E.
    + apply Z.leb_le in E. constructor; [now constructor|].
      constructor; [unfold fieldLe; lia|].
      rewrite Forall_forall in *. intros z Hz. specialize (Hy z Hz).
      unfold fieldLe in *. lia.
    + apply Z.leb_gt in E. constructor; [exact IH|].
      rewrite Forall_forall in *. intros z Hz.
      apply (Permutation_in _ (insert_perm x rest)) in Hz.
      destruct Hz as [<-|Hz]; [unfold fieldLe; lia|now apply Hy].
Qed.

Lemma sort_sorted l : StronglySorted (fieldLe key) (sort (compareBy key) l).
Proof.
  induction l as [|x rest IH]; simpl; [constructor|now apply insert_sorted].
Qed.

(** Insertion goes past strictly smaller keys only, so among the
    elements of one key the inserted element comes first. *)
Lemma insert_filter p x l :
  filter (fun a => (key a =? p)%Z) (insert (compareBy key) x l)
  = filter (fun a => (key a =? p)%Z) (x :: l).
Proof.
  induction l as [|y rest IH]; [reflexivity|].
  cbn [insert]. unfold compareBy at 1.
  destruct (key x - key y <=? 0)%Z eqn:E; [reflexivity|].
  apply Z.leb_gt in E. cbn [filter] in *. rewrite IH.
  destruct (key x =? p)%Z eqn:Ex; [|reflexivity].
  apply Z.eqb_eq in Ex.
  assert (Ey : (key y =? p)%Z = false) by (apply Z.eqb_neq; lia).
  now rewrite Ey.
Qed.

Lemma sort_stable p l :
  filter (fun a => (key a =? p)%Z) (sort (compareBy key) l)
  = filter (fun a => (key a =? p)%Z) l.
Proof.
  induction l as [|x rest IH]; [reflexivity|].
  cbn [sort fold_right]. rewrite insert_filter. cbn [filter].
  fold (sort (compareBy key) rest). now rewrite IH.
Qed.

(** Two sorted lists that agree key by key are equal: the stable sorted
    arrangement of an array is unique, whatever algorithm finds it. *)
Lemma sorted_by_key_unique l1 : forall l2,
  StronglySorted (fieldLe key) l1 -> StronglySorted (fieldLe key) l2 ->
  (forall p, filter (fun a => (key a =? p)%Z) l1
             = filter (fun a => (key a =? p)%Z) l2) ->
  l1 = l2.
Proof.
  induction l1 as [|a l1 IH]; intros l2 S1 S2 H.
  - destruct l2 as [|b l2]; [reflexivity|].
    specialize (H (key b)). cbn [filter] in H. rewrite Z.eqb_refl in H. discriminate.
  - destruct l2 as [|b l2].
    + specialize (H (key a)). cbn [filter] in H. rewrite Z.eqb_refl in H. discriminate.
    + apply StronglySorted_inv in S1. destruct S1 as [S1 F1].
      apply StronglySorted_inv in S2. destruct S2 as [S2 F2].
      rewrite Forall_forall in F1, F2.
      assert (Hk : key a = key b).
      { destruct (Z.lt_trichotomy (key a) (key b)) as [Hlt|[Heq|Hgt]]; [|exact Heq|].
        - pose proof (H (key a)) as Ha. cbn [filter] in Ha.
          rewrite Z.eqb_refl in Ha.
          assert (Eb : (key b =? key a)%Z = false) by (apply Z.eqb_neq; lia).
          rewrite Eb in Ha.
          assert (Hin : In a (filter (fun x => (key x =? key a)%Z) l2))
            by (rewrite <- Ha; now left).
          apply filter_In in Hin. destruct Hin as [Hin _].
          specialize (F2 a Hin). unfold fieldLe in F2. lia.
        - pose proof (H (key b)) as Hb. cbn [filter] in Hb.
          rewrite Z.eqb_refl in Hb.
          assert (Ea : (key a =? key b)%Z = false) by (apply Z.eqb_neq; lia).
          rewrite Ea in Hb.
          assert (Hin : In b (filter (fun x => (key x =? key b)%Z) l1))
            by (rewrite Hb; now left).
          apply filter_In in Hin. destruct Hin as [Hin _].
          specialize (F1 b Hin). unfold fieldLe in F1. lia. }
      assert (Hab : a = b).
      { specialize (H (key a)). cbn [filter] in H.
        rewrite Z.eqb_refl in H. rewrite <- Hk, Z.eqb_refl in H. congruence. }
      subst b. f_equal. apply IH; try assumption.
      intros p. specialize (H p). cbn [filter] in H.
      destruct (key a =? p)%Z; congruence.
Qed.

Lemma sort_unique l l' :
  StronglySorted (fieldLe key) l' ->
  (forall p, filter (fun a => (key a =? p)%Z) l'
             = filter (fun a => (key a =? p)%Z) l) ->
  l' = sort (compareBy key) l.
Proof.
  intros S H. apply sorted_by_key_unique; [exact S|apply sort_sorted|].
  intros p. now rewrite sort_stable.
Qed.

End ByKey.

End SortFacts.
(* ================================================================== *)
(** * Properties of the CREATE TABLE synthesis *)

Module SchemaFacts.
Import Text Js ShowTableSchema TextFacts SortFacts.

Lemma addColumns_from (total : nat) : forall rows k acc,
  (k + List.length rows = total)%nat ->
  fold_left
    (fun acc (entry : nat * ColumnRow.t) =>
       let (index, col) := entry in
       let acc :=
         acc ++ "  " ++ ColumnRow.column_name col ++ " " ++ ColumnRow.type col in
       if (Z.of_nat index <? Z.of_nat total - 1)%Z
       then acc ++ "," ++ LF
       else acc)
    (combine (seq k (List.length rows)) rows) acc
  = acc ++ join ("," ++ LF) (map columnLine rows).
Proof.
  induction rows as [|col rest IH]; intros k acc Hk.
  - simpl. now rewrite append_nil_r.
  - cbn [List.length seq combine fold_left].
    destruct rest as [|col' rest'].
    + cbn [List.length] in Hk.
      assert (E : (Z.of_nat k <? Z.of_nat total - 1)%Z = false)
        by (apply Z.ltb_ge; lia).
      rewrite E. reflexivity.
    + assert (E : (Z.of_nat k <? Z.of_nat total - 1)%Z = true)
        by (apply Z.ltb_lt; cbn [List.length] in Hk; lia).
      rewrite E. rewrite IH by (cbn [List.length] in *; lia).
      change (join ("," ++ LF) (map columnLine (col :: col' :: rest')))
        with (columnLine col ++ ("," ++ LF)
                ++ join ("," ++ LF) (map columnLine (col' :: rest'))).
      generalize (join ("," ++ LF) (map columnLine (col' :: rest'))) as others.
      intros others. unfold columnLine. now rewrite !append_assoc.
Qed.

(** The loop over the columns writes them joined by a comma and a line
    break. *)
Lemma addColumns_join createStatement rows :
  addColumns createStatement rows
  = createStatement ++ join ("," ++ LF) (map columnLine rows).
Proof. unfold addColumns. now apply addColumns_from. Qed.

Lemma partitionKeys_length rows :
  List.length (partitionKeys rows) = List.length (filter isPartitionKey rows).
Proof.
  unfold partitionKeys, partitionKeyRows. rewrite length_map.
  apply Permutation_length, sort_perm.
Qed.

Lemma clusteringKeys_length rows :
  List.length (clusteringKeys rows) = List.length (filter isClusteringKey rows).
Proof.
  unfold clusteringKeys, clusteringKeyRows. rewrite length_map.
  apply Permutation_length, sort_perm.
Qed.

Lemma execute_schema keyspaceName tableName tableInfo others col cols keyRows :
  execute keyspaceName tableName
          {| tables := Rows (tableInfo :: others);
             columns := Rows (col :: cols);
             key_columns := Rows keyRows |}
  = Schema (createTable keyspaceName tableName tableInfo (col :: cols) keyRows).
Proof. reflexivity. Qed.

End SchemaFacts.

Module SchemaClaims.
Import Text Js ShowTableSchema TextFacts SortFacts SchemaFacts.

(** C5: with two or more partition keys and no clustering key the
    statement is the columns, then the PRIMARY KEY clause with the
    partition keys comma-joined inside a second pair of parentheses,
    then the closing parenthesis, directly followed by the storage
    options (if any) and the semicolon: there is no CLUSTERING ORDER BY
    clause. *)
Theorem composite_partition_key
  keyspaceName tableName tableInfo others col cols keyRows :
  (2 <= List.length (filter isPartitionKey keyRows))%nat ->
  filter isClusteringKey keyRows = [] ->
  execute keyspaceName tableName
          {| tables := Rows (tableInfo :: others);
             columns := Rows (col :: cols);
             key_columns := Rows keyRows |}
  = Schema ("CREATE TABLE " ++ keyspaceName ++ "." ++ tableName ++ " (" ++ LF
            ++ join ("," ++ LF) (map columnLine (col :: cols))
            ++ "," ++ LF ++ "  PRIMARY KEY ((" ++ join ", " (partitionKeys keyRows)
            ++ "))" ++ LF ++ ")"
            ++ optionsClause " WITH" (tableOptions tableInfo) ++ ";").
Proof.
  intros Hp Hc. rewrite execute_schema. f_equal.
  unfold createTable. rewrite addColumns_join.
  assert (Hck : clusteringKeys keyRows = []).
  { unfold clusteringKeys, clusteringKeyRows. now rewrite Hc. }
  rewrite Hck. rewrite <- partitionKeys_length in Hp.
  destruct (partitionKeys keyRows) as [|a [|b rest]];
    cbn [List.length] in Hp; try lia.
  unfold addPrimaryKey, addClusteringOrder, addTableOptions, optionsClause.
  cbn [List.length Nat.ltb Nat.leb Nat.eqb orb].
  destruct (tableOptions tableInfo) as [|o os];
    cbn [List.length Nat.ltb Nat.leb Nat.eqb];
    now rewrite !append_assoc.
Qed.

(** C10: with no partition key and at least one clustering key the
    PRIMARY KEY clause is still written, with nothing before the comma:
    [PRIMARY KEY (, ] then the clustering key names. *)
Theorem empty_partition_group
  keyspaceName tableName tableInfo others col cols keyRows :
  filter isPartitionKey keyRows = [] ->
  filter isClusteringKey keyRows <> [] ->
  execute keyspaceName tableName
          {| tables := Rows (tableInfo :: others);
             columns := Rows (col :: cols);
             key_columns := Rows keyRows |}
  = Schema ("CREATE TABLE " ++ keyspaceName ++ "." ++ tableName ++ " (" ++ LF
            ++ join ("," ++ LF) (map columnLine (col :: cols))
            ++ "," ++ LF ++ "  PRIMARY KEY (, "
            ++ join ", " (map name (clusteringKeys keyRows)) ++ ")" ++ LF ++ ")"
            ++ " WITH CLUSTERING ORDER BY ("
            ++ join ", " (map (fun key => name key ++ " " ++ order key)
                              (clusteringKeys keyRows))
            ++ ")"
            ++ optionsClause " AND" (tableOptions tableInfo) ++ ";").
Proof.
  intros Hp Hc. rewrite execute_schema. f_equal.
  unfold createTable. rewrite addColumns_join.
  assert (Hpk : partitionKeys keyRows = []).
  { unfold partitionKeys, partitionKeyRows. now rewrite Hp. }
  rewrite Hpk.
  assert (Hlen : (0 < List.length (clusteringKeys keyRows))%nat).
  { rewrite clusteringKeys_length. destruct (filter isClusteringKey keyRows);
      [congruence|cbn [List.length]; lia]. }
  destruct (clusteringKeys keyRows) as [|ck cks] eqn:E;
    [cbn [List.length] in Hlen; lia|].
  unfold addPrimaryKey, addClusteringOrder, addTableOptions, optionsClause.
  cbn [List.length Nat.ltb Nat.leb Nat.eqb orb].
  destruct (tableOptions tableInfo) as [|o os];
    cbn [List.length Nat.ltb Nat.leb Nat.eqb];
    now rewrite !append_assoc.
Qed.

(** C1: the statement for keyspace [ks], table [t], columns [id uuid],
    [ts timestamp], [value double], partition key [id] and clustering
    key [ts] of order DESC, for a table row that surfaces no storage
    option. *)
Theorem create_table_example tableInfo others idOrder :
  tableOptions tableInfo = [] ->
  execute "ks" "t"
    {| tables := Rows (tableInfo :: others);
       columns :=
         Rows [ {| ColumnRow.column_name := "id"; ColumnRow.type := "uuid" |};
                {| ColumnRow.column_name := "ts"; ColumnRow.type := "timestamp" |};
                {| ColumnRow.column_name := "value"; ColumnRow.type := "double" |} ];
       key_columns :=
         Rows [ {| KeyRow.column_name := "id"; KeyRow.kind := "partition_key";
                   KeyRow.position := 0; KeyRow.clustering_order := idOrder |};
                {| KeyRow.column_name := "ts"; KeyRow.kind := "clustering";
                   KeyRow.position := 0;
                   KeyRow.clustering_order := Some "DESC" |} ] |}
  = Schema ("CREATE TABLE ks.t (" ++ LF
            ++ "  id uuid," ++ LF
            ++ "  ts timestamp," ++ LF
            ++ "  value double," ++ LF
            ++ "  PRIMARY KEY (id, ts)" ++ LF
            ++ ") WITH CLUSTERING ORDER BY (ts DESC);").
Proof.
  intros H. rewrite execute_schema. unfold createTable. rewrite H. reflexivity.
Qed.

End SchemaClaims.
Module JsFacts.
Import Text Js.

Lemma lookup_In props key v : lookup props key = Some v -> In (key, v) props.
Proof.
  induction props as [|[k x] rest IH]; simpl; [discriminate|].
  destruct (String.eqb k key) eqn:E.
  - apply String.eqb_eq in E. intros [= ->]. left. now subst.
  - intros H. right. now apply IH.
Qed.

(** In a well-formed object a property is found under its own key. *)
Lemma lookup_NoDup props key v :
  NoDup (map fst props) -> In (key, v) props -> lookup props key = Some v.
Proof.
  induction props as [|[k x] rest IH]; simpl; [tauto|].
  intros Hnd Hin. inversion Hnd as [|? ? Hk Hrest]; subst.
  destruct Hin as [[= -> ->]|Hin].
  - now rewrite String.eqb_refl.
  - destruct (String.eqb k key) eqn:E; [|now apply IH].
    apply String.eqb_eq in E. subst k. exfalso. apply Hk.
    change key with (fst (key, v)). now apply in_map.
Qed.

End JsFacts.

Module OptionsClaims.
Import Text Js ShowTableSchema TextFacts JsFacts.

Lemma formatValue_object props :
  formatValue (Obj props)
  = "{" ++ replaceQuotes
             (join ","
                (flat_map (fun p =>
                             if isUndefined (snd p) then []
                             else [(Json.quote (fst p) ++ ":"
                                      ++ Json.stringify (snd p))%string])
                          props))
        ++ "}".
Proof.
  unfold formatValue. cbn [typeof String.eqb Ascii.eqb Bool.eqb Json.stringify].
  rewrite (replaceQuotes_append "{"). f_equal.
  now rewrite replaceQuotes_append.
Qed.

Lemma unescaped_cons c rest :
  Json.unescaped (String c rest) = true ->
  (32 <= nat_of_ascii c)%nat /\ nat_of_ascii c <> 34%nat
  /\ nat_of_ascii c <> 92%nat /\ Json.unescaped rest = true.
Proof.
  cbn [Json.unescaped]. cbv zeta. rewrite !andb_true_iff, !negb_true_iff.
  intros [[[H1 H2] H3] H4].
  apply Nat.leb_le in H1. apply Nat.eqb_neq in H2. apply Nat.eqb_neq in H3.
  tauto.
Qed.

Lemma escape_unescaped c :
  (32 <= nat_of_ascii c)%nat -> nat_of_ascii c <> 34%nat ->
  nat_of_ascii c <> 92%nat ->
  Json.escape c = String c EmptyString.
Proof.
  intros H1 H2 H3. unfold Json.escape. cbv zeta.
  repeat match goal with
         | |- context [(?a =? ?b)%nat] =>
             destruct (Nat.eqb_spec a b); [lia|]
         | |- context [(?a <? ?b)%nat] =>
             destruct (Nat.ltb_spec a b); [lia|]
         end.
  reflexivity.
Qed.

Lemma escapeAll_unescaped s :
  Json.unescaped s = true -> Json.escapeAll s = s.
Proof.
  induction s as [|c rest IH]; intros H; [reflexivity|].
  apply unescaped_cons in H. destruct H as [H1 [H2 [H3 H4]]].
  cbn [Json.escapeAll]. rewrite escape_unescaped, IH by assumption.
  reflexivity.
Qed.

Lemma replaceQuotes_unescaped s :
  Json.unescaped s = true -> replaceQuotes s = s.
Proof.
  induction s as [|c rest IH]; intros H; [reflexivity|].
  apply unescaped_cons in H. destruct H as [H1 [H2 [H3 H4]]].
  unfold replaceQuotes in *. cbn [mapString]. rewrite IH by assumption.
  destruct (Ascii.eqb c dquote) eqn:E; [|reflexivity].
  apply Ascii.eqb_eq in E. subst c. now elim H2.
Qed.

Lemma replaceQuotes_quote s :
  Json.unescaped s = true ->
  replaceQuotes (Json.quote s) = "'" ++ s ++ "'".
Proof.
  intros H. unfold Json.quote. rewrite escapeAll_unescaped by exact H.
  change (String dquote (s ++ String dquote EmptyString))
    with (String dquote EmptyString ++ s ++ String dquote EmptyString).
  rewrite !replaceQuotes_append, (replaceQuotes_unescaped s H).
  reflexivity.
Qed.

(** The JSON text of an object whose values are strings. *)
Lemma stringify_texts (entries : list (string * string)) :
  Json.stringify (Obj (map (fun e => (fst e, Str (snd e))) entries))
  = "{" ++ join "," (map (fun e => Json.quote (fst e) ++ ":"
                                     ++ Json.quote (snd e)) entries)
        ++ "}".
Proof.
  cbn [Json.stringify]. do 3 f_equal.
  induction entries as [|e rest IH]; [reflexivity|].
  cbn [map flat_map fst snd isUndefined]. now rewrite IH.
Qed.

Lemma formatValue_texts (entries : list (string * string)) :
  Forall (fun e => Json.unescaped (fst e) = true
                   /\ Json.unescaped (snd e) = true) entries ->
  formatValue (Obj (map (fun e => (fst e, Str (snd e))) entries))
  = "{" ++ join "," (map (fun e => "'" ++ fst e ++ "':'" ++ snd e ++ "'")
                         entries)
        ++ "}".
Proof.
  intros H. unfold formatValue.
  change (typeof (Obj (map (fun e => (fst e, Str (snd e))) entries)))
    with "object".
  cbn [String.eqb Ascii.eqb Bool.eqb].
  rewrite stringify_texts, !replaceQuotes_append, replaceQuotes_join, map_map.
  change (replaceQuotes "{") with "{". change (replaceQuotes "}") with "}".
  change (replaceQuotes ",") with ",". do 3 f_equal.
  apply map_ext_in. intros e He. rewrite Forall_forall in H.
  destruct (H e He) as [Hk Hv].
  rewrite !replaceQuotes_append, !replaceQuotes_quote by assumption.
  change (replaceQuotes ":") with ":".
  rewrite !append_assoc. reflexivity.
Qed.

(** C6: the clauses of the storage options are those of the fields of
    the table row that are on the allow-list and not null, in the order
    of the row; the key is written in camel case; a string is put
    between single quotes; an object is written as its JSON text, in
    braces, where every double quote has become a single quote and
    every other character is as it was (an object of plain strings
    gives ['key':'value'] pairs separated by commas); a number is
    written as [Number::toString] writes it, fractions included, and a
    boolean as [true] or [false].  A null [comment] gives no clause,
    and the comment [hello] gives the clause [comment = 'hello']. *)
Theorem options_formatting tableInfo :
  NoDup (map fst tableInfo) ->
  tableOptions tableInfo
  = map formatOption
        (filter (fun entry => includes optionsToInclude (fst entry)
                              && negb (isNull (snd entry)))
                tableInfo)
  /\ map snakeToCamel optionsToInclude
     = ["bloomFilterFpChance"; "caching"; "comment"; "compaction";
        "compression"; "crcCheckChance"; "defaultTimeToLive";
        "gcGraceSeconds"; "readRepairChance"; "speculativeRetry"]
  /\ (forall key s,
        formatOption (key, Str s)
        = "  " ++ snakeToCamel key ++ " = "
          ++ String squote (s ++ String squote EmptyString))
  /\ (forall key props,
        exists literal,
          formatOption (key, Obj props)
          = "  " ++ snakeToCamel key ++ " = {" ++ literal ++ "}"
          /\ occurs dquote literal = false
          /\ String.length ("{" ++ literal ++ "}")
             = String.length (Json.stringify (Obj props))
          /\ (forall i c,
                String.get i (Json.stringify (Obj props)) = Some c ->
                String.get i ("{" ++ literal ++ "}")
                = Some (if Ascii.eqb c dquote then squote else c)))
  /\ (forall key (entries : list (string * string)),
        Forall (fun e => Json.unescaped (fst e) = true
                         /\ Json.unescaped (snd e) = true) entries ->
        formatOption (key, Obj (map (fun e => (fst e, Str (snd e))) entries))
        = "  " ++ snakeToCamel key ++ " = {"
          ++ join "," (map (fun e => "'" ++ fst e ++ "':'" ++ snd e ++ "'")
                           entries)
          ++ "}")
  /\ (forall key (n : number),
        formatOption (key, Num n)
        = "  " ++ snakeToCamel key ++ " = " ++ NumberToString n)
  /\ (forall key b,
        formatOption (key, Bool b)
        = "  " ++ snakeToCamel key ++ " = " ++ (if b then "true" else "false"))
  /\ (get (Obj tableInfo) "comment" = Null ->
      Forall (fun clause => startsWith "  comment = " clause = false)
             (tableOptions tableInfo))
  /\ (get (Obj tableInfo) "comment" = Str "hello" ->
      In "  comment = 'hello'" (tableOptions tableInfo)).
Proof.
  intros Hnd.
  split; [|split; [|split; [|split; [|split; [|split; [|split; [|split]]]]]]].
  - unfold tableOptions. f_equal. apply filter_ext_in.
    intros [key v] Hin. cbn [fst snd get].
    now rewrite (lookup_NoDup _ _ _ Hnd Hin).
  - reflexivity.
  - reflexivity.
  - intros key props. eexists. split; [|split; [|split]].
    + unfold formatOption. cbn [fst snd]. rewrite formatValue_object.
      cbn [append]. reflexivity.
    + apply replaceQuotes_clean.
    + rewrite <- formatValue_object. unfold formatValue.
      cbn [typeof String.eqb Ascii.eqb Bool.eqb].
      apply mapString_length.
    + intros i c Hget. rewrite <- formatValue_object. unfold formatValue.
      cbn [typeof String.eqb Ascii.eqb Bool.eqb].
      unfold replaceQuotes. rewrite get_mapString, Hget. reflexivity.
  - intros key entries H. unfold formatOption. cbn [fst snd].
    rewrite (formatValue_texts entries H). reflexivity.
  - reflexivity.
  - intros key b. now destruct b.
  - intros Hnull. apply Forall_forall. intros clause Hin.
    unfold tableOptions in Hin. apply in_map_iff in Hin.
    destruct Hin as [[key v] [<- Hf]]. apply filter_In in Hf.
    destruct Hf as [_ Hcond]. cbn [fst] in Hcond.
    apply andb_true_iff in Hcond. destruct Hcond as [Hallow Hnn].
    apply includes_In in Hallow. cbn [optionsToInclude In] in Hallow.
    repeat (destruct Hallow as [<-|Hallow]; [try reflexivity|]);
      [|contradiction].
    rewrite Hnull in Hnn. discriminate.
  - intros Hhello. unfold tableOptions.
    change "  comment = 'hello'" with (formatOption ("comment", Str "hello")).
    apply in_map. apply filter_In. split.
    + apply lookup_In. cbn [get] in Hhello.
      destruct (lookup tableInfo "comment"); congruence.
    + cbn [fst]. rewrite Hhello. reflexivity.
Qed.

End OptionsClaims.

Module KeyClaims.
Import Text Js ShowTableSchema TextFacts SortFacts SchemaFacts.

Lemma orderOf_cases key :
  orderOf key
  = match KeyRow.clustering_order key with
    | None => "ASC"
    | Some EmptyString => "ASC"
    | Some s => toUpperCase s
    end.
Proof.
  unfold orderOf. destruct (KeyRow.clustering_order key) as [[|c s]|]; reflexivity.
Qed.

(** C7, as the code has it: the partition-key rows and the clustering
    rows are each the rows of their kind sorted by ascending position;
    a partition key yields its name, a clustering key its name and an
    order, which is the row's clustering order in upper case when that
    is a non-empty string, and [ASC] when it is absent or empty.  The
    order is not compared with the known directions. *)
Theorem key_classification rows :
  Permutation (partitionKeyRows rows) (filter isPartitionKey rows)
  /\ StronglySorted (fieldLe KeyRow.position) (partitionKeyRows rows)
  /\ partitionKeys rows = map KeyRow.column_name (partitionKeyRows rows)
  /\ Permutation (clusteringKeyRows rows) (filter isClusteringKey rows)
  /\ StronglySorted (fieldLe KeyRow.position) (clusteringKeyRows rows)
  /\ Forall2 (fun key pair =>
                name pair = KeyRow.column_name key
                /\ order pair
                   = match KeyRow.clustering_order key with
                     | None => "ASC"
                     | Some EmptyString => "ASC"
                     | Some s => toUpperCase s
                     end)
             (clusteringKeyRows rows) (clusteringKeys rows).
Proof.
  split; [|split; [|split; [|split; [|split]]]].
  - apply sort_perm.
  - apply sort_sorted.
  - reflexivity.
  - apply sort_perm.
  - apply sort_sorted.
  - unfold clusteringKeys. induction (clusteringKeyRows rows) as [|key rest IH].
    + constructor.
    + cbn [map]. constructor; [|exact IH]. cbn [name order].
      split; [reflexivity|apply orderOf_cases].
Qed.


End KeyClaims.

Module ExecuteClaims.
Import Text Js ShowTableSchema TextFacts SortFacts SchemaFacts.

(** C3, as the code has it.  When the row of the table is missing the
    answer is the message [Table ... not found.], whatever the column
    rows and the key rows are, and whether they can be read or not.
    When the row of the table is there, no column row gives the message
    [No columns found for table ...] and no statement, one column row
    or more (and the key rows read) give a statement; a message comes
    from an empty column list only, a statement from a non-empty one
    only.  A statement is returned in no other case, and the two
    messages are the only ones. *)
Theorem synthesis_precondition keyspaceName tableName db :
  (tables db = Rows [] ->
   execute keyspaceName tableName db
   = Message ("Table '" ++ keyspaceName ++ "." ++ tableName ++ "' not found."))
  /\ (forall tableInfo others,
        tables db = Rows (tableInfo :: others) ->
        (columns db = Rows [] ->
         execute keyspaceName tableName db
         = Message ("No columns found for table '" ++ keyspaceName ++ "."
                      ++ tableName ++ "'."))
        /\ (forall col cols keyRows,
              columns db = Rows (col :: cols) ->
              key_columns db = Rows keyRows ->
              execute keyspaceName tableName db
              = Schema (createTable keyspaceName tableName tableInfo
                                    (col :: cols) keyRows))
        /\ (forall message,
              execute keyspaceName tableName db = Message message ->
              columns db = Rows [])
        /\ (forall statement,
              execute keyspaceName tableName db = Schema statement ->
              exists col cols, columns db = Rows (col :: cols)))
  /\ (forall statement,
        execute keyspaceName tableName db = Schema statement ->
        exists tableInfo others col cols keyRows,
          tables db = Rows (tableInfo :: others)
          /\ columns db = Rows (col :: cols)
          /\ key_columns db = Rows keyRows
          /\ statement = createTable keyspaceName tableName tableInfo
                                     (col :: cols) keyRows)
  /\ (forall message,
        execute keyspaceName tableName db = Message message ->
        (tables db = Rows []
         /\ message = "Table '" ++ keyspaceName ++ "." ++ tableName
                        ++ "' not found.")
        \/ (exists tableInfo others,
              tables db = Rows (tableInfo :: others)
              /\ columns db = Rows []
              /\ message = "No columns found for table '" ++ keyspaceName
                             ++ "." ++ tableName ++ "'.")).
Proof.
  unfold execute. split; [|split; [|split]].
  - intros ->. reflexivity.
  - intros tableInfo others ->. split; [|split; [|split]].
    + intros ->. reflexivity.
    + intros col cols keyRows -> ->. reflexivity.
    + intros message. destruct (columns db) as [[|col cols]|m];
        [reflexivity| |discriminate].
      destruct (key_columns db); discriminate.
    + intros statement. destruct (columns db) as [[|col cols]|m];
        [discriminate| |discriminate].
      intros _. now exists col, cols.
  - intros statement.
    destruct (tables db) as [[|tableInfo others]|m]; try discriminate.
    destruct (columns db) as [[|col cols]|m]; try discriminate.
    destruct (key_columns db) as [keyRows|m]; try discriminate.
    intros [= <-]. now exists tableInfo, others, col, cols, keyRows.
  - intros message.
    destruct (tables db) as [[|tableInfo others]|m]; try discriminate.
    + intros [= <-]. left. now split.
    + destruct (columns db) as [[|col cols]|m]; try discriminate.
      * intros [= <-]. right. now exists tableInfo, others.
      * destruct (key_columns db); discriminate.
Qed.

End ExecuteClaims.

(* ================================================================== *)
(** * Concrete runs *)

Module Runs.
Import Text Js DescribeTable ShowTableSchema Samples.
Import ResolverClaims SchemaClaims OptionsClaims KeyClaims ExecuteClaims.

Lemma cassandraDataTypes_ascii :
  Forall (fun entry : string * Z => isAsciiText (fst entry) = true)
         cassandraDataTypes.
Proof. unfold cassandraDataTypes. repeat constructor. Qed.

Lemma capitalDataTypes_ascii :
  Forall (fun entry : string * Z => isAsciiText (fst entry) = true)
         capitalDataTypes.
Proof. unfold capitalDataTypes. repeat constructor. Qed.

(** A code wins over a name and over a structural shape; a name of the
    table with capital letters is given in small letters; a code the
    table does not list is written as [Number::toString] writes it. *)
Lemma code_field_priority_witness :
  getColumnTypeString cassandraDataTypes
    (Obj [("name", Str "varchar");
          ("info", Obj [("elementType", Str "int")]);
          ("code", Num 10)])
  = Str "text"
  /\ getColumnTypeString capitalDataTypes
       (Obj [("name", Str "Other"); ("code", Num 13)])
     = Str "varchar"
  /\ getColumnTypeString capitalDataTypes (Obj [("code", Num 15)])
     = Str "timeuuid"
  /\ getColumnTypeString cassandraDataTypes
       (Obj [("code", Num 1000000000000000000000)])
     = Str "type_1e+21"
  /\ getColumnTypeString cassandraDataTypes
       (Obj [("code", Num (Dec false 5 1)); ("name", Str "half")])
     = Str "type_0.5"
  /\ getColumnTypeString cassandraDataTypes (Obj [("code", Num NaN)])
     = Str "type_NaN".
Proof.
  split; [|split; [|split; [|split; [|split]]]].
  - exact (proj1 (code_field_priority cassandraDataTypes
                    [("name", Str "varchar");
                     ("info", Obj [("elementType", Str "int")]);
                     ("code", Num 10)] 10 cassandraDataTypes_ascii eq_refl)).
  - exact (proj1 (code_field_priority capitalDataTypes
                    [("name", Str "Other"); ("code", Num 13)] 13
                    capitalDataTypes_ascii eq_refl)).
  - exact (proj1 (code_field_priority capitalDataTypes
                    [("code", Num 15)] 15 capitalDataTypes_ascii eq_refl)).
  - exact (proj1 (code_field_priority cassandraDataTypes
                    [("code", Num 1000000000000000000000)]
                    1000000000000000000000 cassandraDataTypes_ascii eq_refl)).
  - exact (proj1 (code_field_priority cassandraDataTypes
                    [("code", Num (Dec false 5 1)); ("name", Str "half")]
                    (Dec false 5 1) cassandraDataTypes_ascii eq_refl)).
  - exact (proj1 (code_field_priority cassandraDataTypes
                    [("code", Num NaN)] NaN cassandraDataTypes_ascii eq_refl)).
Defined.

Example unlisted_code :
  getColumnTypeString cassandraDataTypes (Obj [("code", Num 99)])
  = Str "type_99".
Proof. reflexivity. Qed.

Example nested_descriptor :
  getColumnTypeString cassandraDataTypes
    (Obj [("info",
           Obj [("keyType", Str "text");
                ("valueType",
                 Obj [("info", Obj [("types", Arr [Obj [("code", Num 9)];
                                                    Obj [("name", Str "address")];
                                                    Obj [("info", Arr [Str "uuid"])]])])])])])
  = Str "map<text, tuple<int, address, set<uuid>>>".
Proof. reflexivity. Qed.

(** An object with none of the shapes is converted by [String]. *)
Lemma unrecognized_shape_witness :
  getColumnTypeString cassandraDataTypes (Obj [("info", Obj [])])
  = Str "[object Object]".
Proof.
  exact (unrecognized_shape cassandraDataTypes (Obj [("info", Obj [])]) eq_refl).
Defined.

(** The empty object is of no recognized shape, and its type name is
    not ['unknown']; nor is that of a number. *)
Lemma unrecognized_object_not_unknown :
  unrecognized (Obj []) = true
  /\ getColumnTypeString cassandraDataTypes (Obj []) = Str "[object Object]"
  /\ Str "[object Object]" <> Str "unknown"
  /\ unrecognized (Num 42) = true
  /\ getColumnTypeString cassandraDataTypes (Num 42) = Str "42".
Proof. repeat split; try reflexivity. discriminate. Qed.

(** Outside the resolvable shapes a second resolution can differ: a
    [name] field that is not a string is returned as it is, and an
    empty array is converted to the empty string. *)
Example numeric_name_is_returned :
  getColumnTypeString cassandraDataTypes (Obj [("name", Num 5)]) = Num 5
  /\ getColumnTypeString cassandraDataTypes (Num 5) = Str "5".
Proof. split; reflexivity. Qed.

Example empty_array_descriptor :
  getColumnTypeString cassandraDataTypes (Arr []) = Str EmptyString
  /\ getColumnTypeString cassandraDataTypes (Str EmptyString) = Str "unknown".
Proof. split; reflexivity. Qed.

(** A conversion that throws inside [try] is caught. *)
Example thrown_conversion_is_caught :
  getColumnTypeString cassandraDataTypes
    (Obj [("info", Obj [("elementType",
                         Obj [("name", Obj [("toString", Null)])])])])
  = Str "unknown".
Proof. reflexivity. Qed.

Lemma cassandraDataTypes_named :
  Forall (fun entry : string * Z => fst entry <> EmptyString) cassandraDataTypes.
Proof. unfold cassandraDataTypes. repeat constructor; discriminate. Qed.

Lemma resolve_idempotent_witness :
  getColumnTypeString cassandraDataTypes
    (getColumnTypeString cassandraDataTypes
       (Obj [("info", Obj [("keyType", Obj [("code", Num 12)]);
                           ("valueType",
                            Obj [("info", Obj [("elementType", Str "int")])])])]))
  = getColumnTypeString cassandraDataTypes
      (Obj [("info", Obj [("keyType", Obj [("code", Num 12)]);
                          ("valueType",
                           Obj [("info", Obj [("elementType", Str "int")])])])]).
Proof.
  exact (resolve_idempotent cassandraDataTypes
           (Obj [("info", Obj [("keyType", Obj [("code", Num 12)]);
                               ("valueType",
                                Obj [("info", Obj [("elementType", Str "int")])])])])
           cassandraDataTypes_named eq_refl).
Defined.

Lemma create_table_example_witness :
  execute "ks" "t"
    {| tables := Rows [bareTableRow];
       columns :=
         Rows [ {| ColumnRow.column_name := "id"; ColumnRow.type := "uuid" |};
                {| ColumnRow.column_name := "ts"; ColumnRow.type := "timestamp" |};
                {| ColumnRow.column_name := "value"; ColumnRow.type := "double" |} ];
       key_columns :=
         Rows [ {| KeyRow.column_name := "id"; KeyRow.kind := "partition_key";
                   KeyRow.position := 0;
                   KeyRow.clustering_order := Some "none" |};
                {| KeyRow.column_name := "ts"; KeyRow.kind := "clustering";
                   KeyRow.position := 0;
                   KeyRow.clustering_order := Some "DESC" |} ] |}
  = Schema ("CREATE TABLE ks.t (" ++ LF
            ++ "  id uuid," ++ LF
            ++ "  ts timestamp," ++ LF
            ++ "  value double," ++ LF
            ++ "  PRIMARY KEY (id, ts)" ++ LF
            ++ ") WITH CLUSTERING ORDER BY (ts DESC);").
Proof.
  exact (create_table_example bareTableRow [] (Some "none") eq_refl).
Defined.

Lemma composite_partition_key_witness :
  execute "ks" "t"
    {| tables := Rows [bareTableRow];
       columns :=
         Rows [ {| ColumnRow.column_name := "a"; ColumnRow.type := "int" |};
                {| ColumnRow.column_name := "b"; ColumnRow.type := "text" |} ];
       key_columns := Rows twoPartitionKeys |}
  = Schema ("CREATE TABLE ks.t (" ++ LF
            ++ "  a int," ++ LF
            ++ "  b text," ++ LF
            ++ "  PRIMARY KEY ((a, b))" ++ LF
            ++ ");").
Proof.
  exact (composite_partition_key "ks" "t" bareTableRow []
           {| ColumnRow.column_name := "a"; ColumnRow.type := "int" |}
           [ {| ColumnRow.column_name := "b"; ColumnRow.type := "text" |} ]
           twoPartitionKeys (le_n 2) eq_refl).
Defined.

Lemma empty_partition_group_witness :
  execute "ks" "t"
    {| tables := Rows [bareTableRow];
       columns := Rows [ {| ColumnRow.column_name := "ts";
                            ColumnRow.type := "timestamp" |} ];
       key_columns := Rows onlyClusteringKeys |}
  = Schema ("CREATE TABLE ks.t (" ++ LF
            ++ "  ts timestamp," ++ LF
            ++ "  PRIMARY KEY (, ts)" ++ LF
            ++ ") WITH CLUSTERING ORDER BY (ts DESC);").
Proof.
  refine (empty_partition_group "ks" "t" bareTableRow []
            {| ColumnRow.column_name := "ts"; ColumnRow.type := "timestamp" |}
            [] onlyClusteringKeys eq_refl _).
  discriminate.
Defined.

Lemma fullTableRow_keys : NoDup (map fst fullTableRow).
Proof.
  unfold fullTableRow. cbn [map fst].
  repeat constructor; cbn [In]; intuition discriminate.
Qed.

Lemma bareTableRow_keys : NoDup (map fst bareTableRow).
Proof.
  unfold bareTableRow. cbn [map fst].
  repeat constructor; cbn [In]; intuition discriminate.
Qed.

Lemma cachingEntries_plain :
  Forall (fun e : string * string =>
            Json.unescaped (fst e) = true /\ Json.unescaped (snd e) = true)
         [("keys", "ALL"); ("rows_per_partition", "NONE")].
Proof. repeat constructor. Qed.

(** The options of a table row as the catalog holds it: the fraction,
    the three maps, the integers and the strings are surfaced, the null
    [read_repair_chance] and the fields off the list are not. *)
Lemma options_formatting_witness :
  tableOptions fullTableRow
  = ["  bloomFilterFpChance = 0.01";
     "  caching = {'keys':'ALL','rows_per_partition':'NONE'}";
     "  comment = 'hello'";
     "  compaction = {'class':'org.apache.cassandra.db.compaction.SizeTieredCompactionStrategy','max_threshold':'32','min_threshold':'4'}";
     "  compression = {'chunk_length_in_kb':'64','class':'org.apache.cassandra.io.compress.LZ4Compressor'}";
     "  crcCheckChance = 1";
     "  defaultTimeToLive = 0";
     "  gcGraceSeconds = 864000";
     "  speculativeRetry = '99PERCENTILE'"]
  /\ Forall (fun clause => startsWith "  comment = " clause = false)
            (tableOptions bareTableRow)
  /\ In "  comment = 'hello'" (tableOptions fullTableRow)
  /\ formatOption ("caching",
                   Obj [("keys", Str "ALL"); ("rows_per_partition", Str "NONE")])
     = "  caching = {'keys':'ALL','rows_per_partition':'NONE'}"
  /\ formatOption ("bloom_filter_fp_chance", Num (Dec false 1 2))
     = "  bloomFilterFpChance = 0.01"
  /\ formatOption ("speculative_retry", Str "99PERCENTILE")
     = "  speculativeRetry = '99PERCENTILE'".
Proof.
  split; [|split; [|split; [|split; [|split]]]].
  - exact (eq_trans (proj1 (options_formatting fullTableRow fullTableRow_keys))
                    eq_refl).
  - destruct (options_formatting bareTableRow bareTableRow_keys)
      as (_ & _ & _ & _ & _ & _ & _ & Hnull & _).
    exact (Hnull eq_refl).
  - destruct (options_formatting fullTableRow fullTableRow_keys)
      as (_ & _ & _ & _ & _ & _ & _ & _ & Hhello).
    exact (Hhello eq_refl).
  - destruct (options_formatting fullTableRow fullTableRow_keys)
      as (_ & _ & _ & _ & Htexts & _).
    exact (Htexts "caching" [("keys", "ALL"); ("rows_per_partition", "NONE")]
                  cachingEntries_plain).
  - destruct (options_formatting fullTableRow fullTableRow_keys)
      as (_ & _ & _ & _ & _ & Hnumber & _).
    exact (Hnumber "bloom_filter_fp_chance" (Dec false 1 2)).
  - destruct (options_formatting fullTableRow fullTableRow_keys)
      as (_ & _ & Htext & _).
    exact (Htext "speculative_retry" "99PERCENTILE").
Defined.

(** Numbers of the options as the clause writes them. *)
Example option_numbers :
  map (fun n => formatOption ("bloom_filter_fp_chance", Num n))
      [Dec false 1 2; Dec false 1 1; Int 1; Int 0; Dec false 1 3;
       Dec false 1 7; Dec true 25 1; Int 1000000000000000000000]
  = ["  bloomFilterFpChance = 0.01"; "  bloomFilterFpChance = 0.1";
     "  bloomFilterFpChance = 1"; "  bloomFilterFpChance = 0";
     "  bloomFilterFpChance = 0.001"; "  bloomFilterFpChance = 1e-7";
     "  bloomFilterFpChance = -2.5"; "  bloomFilterFpChance = 1e+21"].
Proof. reflexivity. Qed.

(** An object with a value that is no plain string: the backslash of
    the JSON text stays, its double quotes go. *)
Example option_with_escapes :
  formatOption ("compaction",
                Obj [("class", Str (String dquote "x")); ("enabled", Bool true);
                     ("n", Num (Dec false 5 1)); ("none", Undefined);
                     ("nan", Num NaN); ("list", Arr [Null; Num 2])])
  = "  compaction = {'class':'" ++ String backslash "'x','enabled':true,'n':0.5,'nan':null,'list':[null,2]}".
Proof. reflexivity. Qed.

Example sample_options :
  tableOptions sampleTableRow
  = ["  comment = 'hello'";
     "  caching = {'keys':'ALL','rows_per_partition':'NONE'}";
     "  gcGraceSeconds = 864000"].
Proof. reflexivity. Qed.

Example statement_with_options :
  execute "ks" "t"
    {| tables := Rows [sampleTableRow];
       columns := Rows [idColumn];
       key_columns :=
         Rows [ {| KeyRow.column_name := "id"; KeyRow.kind := "partition_key";
                   KeyRow.position := 0; KeyRow.clustering_order := None |} ] |}
  = Schema ("CREATE TABLE ks.t (" ++ LF
            ++ "  id uuid," ++ LF
            ++ "  PRIMARY KEY (id)" ++ LF
            ++ ") WITH" ++ LF
            ++ "  comment = 'hello' AND" ++ LF
            ++ "  caching = {'keys':'ALL','rows_per_partition':'NONE'} AND" ++ LF
            ++ "  gcGraceSeconds = 864000;").
Proof. reflexivity. Qed.

(** A clustering row whose order is neither direction keeps it, in
    upper case. *)
Lemma unrecognized_order_kept :
  recognizedOrder "none" = false
  /\ clusteringKeys
       [ {| KeyRow.column_name := "ts"; KeyRow.kind := "clustering";
            KeyRow.position := 0; KeyRow.clustering_order := Some "none" |} ]
     = [ {| name := "ts"; order := "NONE" |} ]
  /\ "NONE" <> "ASC".
Proof. repeat split. discriminate. Qed.

Example duplicate_positions :
  partitionKeys
    [ {| KeyRow.column_name := "c"; KeyRow.kind := "partition_key";
         KeyRow.position := 1; KeyRow.clustering_order := None |};
      {| KeyRow.column_name := "b"; KeyRow.kind := "partition_key";
         KeyRow.position := 0; KeyRow.clustering_order := None |};
      {| KeyRow.column_name := "x"; KeyRow.kind := "clustering";
         KeyRow.position := 0; KeyRow.clustering_order := None |};
      {| KeyRow.column_name := "a"; KeyRow.kind := "partition_key";
         KeyRow.position := 0; KeyRow.clustering_order := None |} ]
  = ["b"; "a"; "c"].
Proof. reflexivity. Qed.

Lemma synthesis_precondition_witness :
  execute "ks" "t"
    {| tables := Rows [bareTableRow]; columns := Rows []; key_columns := Rows [] |}
  = Message "No columns found for table 'ks.t'."
  /\ execute "ks" "v"
       {| tables := Rows []; columns := Rows [idColumn];
          key_columns := Rejected "unavailable" |}
     = Message "Table 'ks.v' not found."
  /\ execute "ks" "t"
       {| tables := Rows [bareTableRow]; columns := Rows [idColumn];
          key_columns := Rows [] |}
     = Schema ("CREATE TABLE ks.t (" ++ LF ++ "  id uuid" ++ LF ++ ");").
Proof.
  split; [|split].
  - exact (proj1 (proj1 (proj2 (synthesis_precondition "ks" "t"
                    {| tables := Rows [bareTableRow]; columns := Rows [];
                       key_columns := Rows [] |}))
                  bareTableRow [] eq_refl) eq_refl).
  - exact (proj1 (synthesis_precondition "ks" "v"
                    {| tables := Rows []; columns := Rows [idColumn];
                       key_columns := Rejected "unavailable" |}) eq_refl).
  - exact (proj1 (proj2 (proj1 (proj2 (synthesis_precondition "ks" "t"
                    {| tables := Rows [bareTableRow]; columns := Rows [idColumn];
                       key_columns := Rows [] |}))
                  bareTableRow [] eq_refl)) idColumn [] [] eq_refl eq_refl).
Defined.

(** Without the table's own row nothing is synthesized, whatever the
    column rows are: the name of a materialized view has columns in the
    catalog and no row in [system_schema.tables]. *)
Lemma missing_table_row :
  execute "ks" "v"
    {| tables := Rows []; columns := Rows [idColumn]; key_columns := Rows [] |}
  = Message "Table 'ks.v' not found."
  /\ execute "ks" "v"
       {| tables := Rows []; columns := Rows []; key_columns := Rows [] |}
     = Message "Table 'ks.v' not found.".
Proof. split; reflexivity. Qed.

End Runs.

(* ================================================================== *)
(** * Sorting and filtering *)

Module FilterFacts.
Import Text TextFacts ShowTableSchema SortFacts.

Lemma includes_false l key : includes l key = false <-> ~ In key l.
Proof.
  rewrite <- includes_In. destruct (includes l key); split; congruence.
Qed.

Lemma filter_comm {A : Type} (p q : A -> bool) (l : list A) :
  filter p (filter q l) = filter q (filter p l).
Proof.
  induction l as [|x rest IH]; [reflexivity|]. cbn [filter].
  destruct (q x) eqn:Q, (p x) eqn:P; cbn [filter];
    rewrite ?Q, ?P, IH; reflexivity.
Qed.

Lemma StronglySorted_filter {A : Type} (R : A -> A -> Prop) (p : A -> bool) l :
  StronglySorted R l -> StronglySorted R (filter p l).
Proof.
  induction 1 as [|x rest Hs IH Hx]; cbn [filter]; [constructor|].
  destruct (p x); [|exact IH]. constructor; [exact IH|].
  rewrite Forall_forall in *. intros y Hy. apply filter_In in Hy.
  now apply Hx.
Qed.

(** Sorting by a numeric field and keeping the elements of a kind can
    be done in either order. *)
Lemma filter_sort {A : Type} (key : A -> Z) (p : A -> bool) (l : list A) :
  filter p (sort (compareBy key) l) = sort (compareBy key) (filter p l).
Proof.
  apply sort_unique.
  - apply StronglySorted_filter, sort_sorted.
  - intros q. rewrite filter_comm, sort_stable. apply filter_comm.
Qed.

Lemma NoDup_map_eq {A B : Type} (f : A -> B) (l : list A) a b :
  NoDup (map f l) -> In a l -> In b l -> f a = f b -> a = b.
Proof.
  induction l as [|x rest IH]; cbn [map In]; [tauto|].
  intros Hnd Ha Hb E. inversion Hnd as [|? ? Hx Hrest]; subst.
  destruct Ha as [->|Ha], Hb as [->|Hb].
  - reflexivity.
  - exfalso. apply Hx. rewrite E. now apply in_map.
  - exfalso. apply Hx. rewrite <- E. now apply in_map.
  - now apply IH.
Qed.

End FilterFacts.

(* ================================================================== *)
(** * Properties of the describe tool *)

Module DescribeFacts.
Import Text Js TextFacts SortFacts FilterFacts.

Lemma keyColumns_In rows r : In r (Describe.keyColumns rows) <-> In r rows.
Proof.
  unfold Describe.keyColumns. split; intros H.
  - eapply Permutation_in; [apply (sort_perm KeyRow.position)|exact H].
  - eapply Permutation_in; [symmetry; apply (sort_perm KeyRow.position)|exact H].
Qed.

Lemma clusteringKeyRows_In rows r :
  In r (ShowTableSchema.clusteringKeyRows rows)
  <-> In r rows /\ ShowTableSchema.isClusteringKey r = true.
Proof.
  unfold ShowTableSchema.clusteringKeyRows. rewrite <- filter_In. split; intros H.
  - eapply Permutation_in; [apply (sort_perm KeyRow.position)|exact H].
  - eapply Permutation_in; [symmetry; apply (sort_perm KeyRow.position)|exact H].
Qed.

Lemma partitionKeyRows_In rows r :
  In r (ShowTableSchema.partitionKeyRows rows)
  <-> In r rows /\ ShowTableSchema.isPartitionKey r = true.
Proof.
  unfold ShowTableSchema.partitionKeyRows. rewrite <- filter_In. split; intros H.
  - eapply Permutation_in; [apply (sort_perm KeyRow.position)|exact H].
  - eapply Permutation_in; [symmetry; apply (sort_perm KeyRow.position)|exact H].
Qed.

(** The two readings of a row's clustering order are the same. *)
Lemma order_of_row r :
  match KeyRow.clustering_order r with
  | Some s => if truthy (Str s) then toUpperCase s else "ASC"
  | None => "ASC"
  end = ShowTableSchema.orderOf r.
Proof.
  unfold ShowTableSchema.orderOf.
  destruct (KeyRow.clustering_order r) as [[|c s]|]; reflexivity.
Qed.

Lemma kinds_differ r :
  ShowTableSchema.isPartitionKey r = true ->
  ShowTableSchema.isClusteringKey r = true -> False.
Proof.
  unfold ShowTableSchema.isPartitionKey, ShowTableSchema.isClusteringKey.
  intros H1 H2. apply String.eqb_eq in H1. rewrite H1 in H2. discriminate.
Qed.

Section Tool.
Variable dataTypes : list (string * Z).

Lemma describe_partitionKeys keyspaceName tableName tableOptions columnRows keyRows :
  Describe.partitionKeys
    (Describe.describe dataTypes keyspaceName tableName tableOptions
                       columnRows keyRows)
  = ShowTableSchema.partitionKeys keyRows.
Proof.
  cbn [Describe.describe Describe.partitionKeys].
  unfold Describe.keyColumns, ShowTableSchema.partitionKeys,
    ShowTableSchema.partitionKeyRows, ShowTableSchema.byPosition.
  now rewrite filter_sort.
Qed.

Lemma describe_clusteringKeys keyspaceName tableName tableOptions columnRows keyRows :
  Describe.clusteringKeys
    (Describe.describe dataTypes keyspaceName tableName tableOptions
                       columnRows keyRows)
  = map KeyRow.column_name (ShowTableSchema.clusteringKeyRows keyRows).
Proof.
  cbn [Describe.describe Describe.clusteringKeys].
  unfold Describe.keyColumns, ShowTableSchema.clusteringKeyRows,
    ShowTableSchema.byPosition.
  now rewrite filter_sort.
Qed.

(** X1.  DescribeTableTool.execute sorts the key rows and then filters
    them by kind, the CREATE TABLE tool filters and then sorts: both
    give the same partition key names and the same clustering key names
    in the same order.  A column of the description is tagged
    partition_key exactly when its name is a partition key, and
    clustering_key exactly when it is a clustering key and no partition
    key. *)
Theorem describe_keys_agree
  keyspaceName tableName tableOptions columnRows keyRows :
  let d := Describe.describe dataTypes keyspaceName tableName tableOptions
                             columnRows keyRows in
  Describe.partitionKeys d = ShowTableSchema.partitionKeys keyRows
  /\ Describe.clusteringKeys d
     = map ShowTableSchema.name (ShowTableSchema.clusteringKeys keyRows)
  /\ Forall (fun col =>
               (Describe.Column.kind col = "partition_key"
                <-> In (Describe.Column.name col)
                       (ShowTableSchema.partitionKeys keyRows))
               /\ (Describe.Column.kind col = "clustering_key"
                   <-> ~ In (Describe.Column.name col)
                            (ShowTableSchema.partitionKeys keyRows)
                       /\ In (Describe.Column.name col)
                             (map ShowTableSchema.name
                                  (ShowTableSchema.clusteringKeys keyRows))))
            (Describe.columns d).
Proof.
  intros d. subst d.
  assert (Hc : map ShowTableSchema.name (ShowTableSchema.clusteringKeys keyRows)
               = map KeyRow.column_name (ShowTableSchema.clusteringKeyRows keyRows)).
  { unfold ShowTableSchema.clusteringKeys. rewrite map_map. reflexivity. }
  split; [apply describe_partitionKeys|].
  split; [rewrite Hc; apply describe_clusteringKeys|].
  rewrite Hc.
  pose proof (describe_partitionKeys keyspaceName tableName tableOptions
                                     columnRows keyRows) as Hp.
  pose proof (describe_clusteringKeys keyspaceName tableName tableOptions
                                      columnRows keyRows) as Hk.
  cbn [Describe.describe Describe.partitionKeys Describe.clusteringKeys
       Describe.columns] in *.
  rewrite Hp, Hk. apply Forall_forall. intros col Hin.
  apply in_map_iff in Hin. destruct Hin as [row [<- _]].
  cbn [Describe.Column.kind Describe.Column.name]. unfold Describe.kindOf.
  destruct (includes (ShowTableSchema.partitionKeys keyRows)
                     (DescribeColumnRow.column_name row)) eqn:P.
  - apply includes_In in P. split; split; try tauto; try discriminate.
  - apply includes_false in P.
    destruct (includes (map KeyRow.column_name
                            (ShowTableSchema.clusteringKeyRows keyRows))
                       (DescribeColumnRow.column_name row)) eqn:C.
    + apply includes_In in C. split; split; try tauto; try discriminate.
    + apply includes_false in C. split; split; try tauto; try discriminate.
Qed.


Lemma orderFor_row keyRows r :
  NoDup (map KeyRow.column_name keyRows) ->
  In r keyRows ->
  Describe.orderFor (Describe.keyColumns keyRows) (KeyRow.column_name r)
  = ShowTableSchema.orderOf r.
Proof.
  intros Hnd Hin. unfold Describe.orderFor.
  destruct (find _ (Describe.keyColumns keyRows)) as [keyInfo|] eqn:F.
  - apply find_some in F. destruct F as [Hk E].
    apply (proj1 (keyColumns_In _ _)) in Hk. apply String.eqb_eq in E.
    rewrite (NoDup_map_eq KeyRow.column_name keyRows keyInfo r Hnd Hk Hin E).
    apply order_of_row.
  - exfalso. apply (proj2 (keyColumns_In _ _)) in Hin.
    pose proof (find_none _ _ F r Hin) as N. cbn beta in N.
    now rewrite String.eqb_refl in N.
Qed.

(** Distinct key rows have distinct names, so no name is both a
    partition key and a clustering key. *)
Lemma clustering_not_partition keyRows name :
  NoDup (map KeyRow.column_name keyRows) ->
  includes (map KeyRow.column_name (ShowTableSchema.clusteringKeyRows keyRows))
           name = true ->
  includes (ShowTableSchema.partitionKeys keyRows) name = false.
Proof.
  intros Hnd C. apply includes_In in C. apply in_map_iff in C.
  destruct C as [r [<- Hr]].
  apply (proj1 (clusteringKeyRows_In _ _)) in Hr. destruct Hr as [Hin Hclu].
  apply includes_false. intros Hp'.
  unfold ShowTableSchema.partitionKeys in Hp'.
  apply in_map_iff in Hp'. destruct Hp' as [r' [E' Hr'']].
  apply (proj1 (partitionKeyRows_In _ _)) in Hr''. destruct Hr'' as [Hin' Hpart].
  rewrite (NoDup_map_eq KeyRow.column_name keyRows r' r Hnd Hin' Hin E')
    in Hpart.
  exact (kinds_differ r Hpart Hclu).
Qed.

(** X2.  When the key rows have distinct column names, the
    clusteringOrder entries of the description are (column, order)
    pairs of the CREATE TABLE tool's clustering keys, every such
    clustering key whose column is among the column rows has its
    entry, and the entries come in the order of the column rows: their
    columns are the names of the column rows that are clustering
    keys, one after the other. *)
Theorem describe_clustering_order
  keyspaceName tableName tableOptions columnRows keyRows :
  NoDup (map KeyRow.column_name keyRows) ->
  exists entries,
    Describe.clusteringOrder
      (Describe.describe dataTypes keyspaceName tableName tableOptions
                         columnRows keyRows) = Some entries
    /\ (forall e, In e entries ->
          In {| ShowTableSchema.name := Describe.column e;
                ShowTableSchema.order := Describe.order e |}
             (ShowTableSchema.clusteringKeys keyRows))
    /\ (forall ck, In ck (ShowTableSchema.clusteringKeys keyRows) ->
          In (ShowTableSchema.name ck)
             (map DescribeColumnRow.column_name columnRows) ->
          In {| Describe.column := ShowTableSchema.name ck;
                Describe.order := ShowTableSchema.order ck |} entries)
    /\ map Describe.column entries
       = filter (includes (map ShowTableSchema.name
                               (ShowTableSchema.clusteringKeys keyRows)))
                (map DescribeColumnRow.column_name columnRows).
Proof.
  intros Hnd. eexists. split; [reflexivity|].
  pose proof (describe_partitionKeys keyspaceName tableName tableOptions
                                     columnRows keyRows) as Hp.
  pose proof (describe_clusteringKeys keyspaceName tableName tableOptions
                                      columnRows keyRows) as Hk.
  cbn [Describe.describe Describe.partitionKeys Describe.clusteringKeys] in Hp, Hk.
  rewrite Hp, Hk. split; [|split].
  - intros e He. apply in_map_iff in He. destruct He as [col [<- Hcol]].
    apply filter_In in Hcol. destruct Hcol as [Hcol Hkind].
    apply in_map_iff in Hcol. destruct Hcol as [row [<- _]].
    cbn [Describe.Column.kind Describe.Column.name Describe.column Describe.order]
      in *.
    apply String.eqb_eq in Hkind. unfold Describe.kindOf in Hkind.
    destruct (includes (ShowTableSchema.partitionKeys keyRows) _);
      [discriminate|].
    destruct (includes (map KeyRow.column_name _) _) eqn:C; [|discriminate].
    apply includes_In in C. apply in_map_iff in C. destruct C as [r [E Hr]].
    pose proof Hr as Hr'. apply (proj1 (clusteringKeyRows_In _ _)) in Hr'.
    destruct Hr' as [Hin _]. rewrite <- E.
    rewrite (orderFor_row keyRows r Hnd Hin).
    unfold ShowTableSchema.clusteringKeys.
    change {| ShowTableSchema.name := KeyRow.column_name r;
              ShowTableSchema.order := ShowTableSchema.orderOf r |}
      with ((fun key => {| ShowTableSchema.name := KeyRow.column_name key;
                           ShowTableSchema.order := ShowTableSchema.orderOf key |}) r).
    now apply in_map.
  - intros ck Hck Hcol. unfold ShowTableSchema.clusteringKeys in Hck.
    apply in_map_iff in Hck. destruct Hck as [r [<- Hr]].
    cbn [ShowTableSchema.name ShowTableSchema.order] in *.
    apply in_map_iff in Hcol. destruct Hcol as [row [E Hrow]].
    pose proof Hr as Hr'. apply (proj1 (clusteringKeyRows_In _ _)) in Hr'.
    destruct Hr' as [Hin Hclu].
    rewrite <- (orderFor_row keyRows r Hnd Hin).
    set (col := {| Describe.Column.name := DescribeColumnRow.column_name row;
                   Describe.Column.type :=
                     DescribeTable.getColumnTypeString dataTypes
                       (DescribeColumnRow.type row);
                   Describe.Column.position :=
                     Some (DescribeColumnRow.position row);
                   Describe.Column.kind :=
                     Describe.kindOf
                       (ShowTableSchema.partitionKeys keyRows)
                       (map KeyRow.column_name
                            (ShowTableSchema.clusteringKeyRows keyRows))
                       (DescribeColumnRow.column_name row) |}).
    apply in_map_iff. exists col. split.
    + cbn [col Describe.Column.name]. now rewrite E.
    + apply filter_In. split.
      * apply in_map_iff. exists row. split; [reflexivity|exact Hrow].
      * cbn [col Describe.Column.kind]. unfold Describe.kindOf. rewrite E.
        assert (P : includes (ShowTableSchema.partitionKeys keyRows)
                             (KeyRow.column_name r) = false).
        { apply includes_false. intros Hp'.
          unfold ShowTableSchema.partitionKeys in Hp'.
          apply in_map_iff in Hp'. destruct Hp' as [r' [E' Hr'']].
          apply (proj1 (partitionKeyRows_In _ _)) in Hr''. destruct Hr'' as [Hin' Hpart].
          rewrite (NoDup_map_eq KeyRow.column_name keyRows r' r Hnd Hin' Hin E')
            in Hpart.
          exact (kinds_differ r Hpart Hclu). }
        rewrite P.
        assert (C : includes (map KeyRow.column_name
                                  (ShowTableSchema.clusteringKeyRows keyRows))
                             (KeyRow.column_name r) = true).
        { apply includes_In. now apply in_map. }
        now rewrite C.
  - assert (Hc : map ShowTableSchema.name (ShowTableSchema.clusteringKeys keyRows)
                 = map KeyRow.column_name
                       (ShowTableSchema.clusteringKeyRows keyRows)).
    { unfold ShowTableSchema.clusteringKeys. rewrite map_map. reflexivity. }
    rewrite Hc, map_map. cbn [Describe.column].
    induction columnRows as [|row rest IH]; [reflexivity|].
    cbn [map filter Describe.Column.kind Describe.Column.name].
    unfold Describe.kindOf at 1.
    destruct (includes (map KeyRow.column_name
                            (ShowTableSchema.clusteringKeyRows keyRows))
                       (DescribeColumnRow.column_name row)) eqn:C.
    + rewrite (clustering_not_partition keyRows _ Hnd C).
      cbn [String.eqb Ascii.eqb Bool.eqb map Describe.Column.name].
      f_equal. apply IH.
    + destruct (includes (ShowTableSchema.partitionKeys keyRows)
                         (DescribeColumnRow.column_name row));
        cbn [String.eqb Ascii.eqb Bool.eqb]; apply IH.
Qed.

(** X3.  The description of the fallback path has the same partition
    keys, the same clustering keys and the same tag on every column as
    the description of the first attempt, and the same column types
    where the catalog gives every type as a non-empty string. *)
Theorem describe_fallback_agrees
  keyspaceName tableName tableOptions columnRows keyRows :
  let first := Describe.describe dataTypes keyspaceName tableName tableOptions
                                 columnRows keyRows in
  let second := Describe.describeFallback keyspaceName tableName
                                          columnRows keyRows in
  Describe.partitionKeys second = Describe.partitionKeys first
  /\ Describe.clusteringKeys second = Describe.clusteringKeys first
  /\ map (fun col => (Describe.Column.name col, Describe.Column.kind col))
         (Describe.columns second)
     = map (fun col => (Describe.Column.name col, Describe.Column.kind col))
           (Describe.columns first)
  /\ (Forall (fun row => exists s, DescribeColumnRow.type row = Str s
                                   /\ s <> EmptyString) columnRows ->
      map Describe.Column.type (Describe.columns second)
      = map Describe.Column.type (Describe.columns first)).
Proof.
  intros first second. subst first second.
  pose proof (describe_partitionKeys keyspaceName tableName tableOptions
                                     columnRows keyRows) as Hp.
  pose proof (describe_clusteringKeys keyspaceName tableName tableOptions
                                      columnRows keyRows) as Hk.
  split; [now rewrite Hp|]. split; [now rewrite Hk|].
  cbn [Describe.describe Describe.partitionKeys Describe.clusteringKeys] in Hp, Hk.
  cbn [Describe.describe Describe.describeFallback Describe.columns].
  rewrite Hp, Hk. rewrite !map_map. cbn [Describe.Column.name Describe.Column.kind
                                          Describe.Column.type].
  split; [reflexivity|].
  intros Htypes. apply map_ext_in. intros row Hrow.
  rewrite Forall_forall in Htypes. destruct (Htypes row Hrow) as [s [-> Hs]].
  symmetry. apply ResolverClaims.resolve_plain. now apply ResolverClaims.truthy_Str.
Qed.

End Tool.
End DescribeFacts.
(* ================================================================== *)
(** * Properties of the SELECT builder *)

Module SelectRowsFacts.
Import Text Js TextFacts SelectRows.

Lemma countChar_append c s1 s2 :
  countChar c (s1 ++ s2) = (countChar c s1 + countChar c s2)%nat.
Proof. induction s1; simpl; [reflexivity|]. rewrite IHs1. lia. Qed.

Lemma list_sum_cons x l : list_sum (x :: l) = (x + list_sum l)%nat.
Proof. reflexivity. Qed.

Lemma countChar_join c sep l :
  countChar c sep = 0%nat ->
  countChar c (join sep l) = list_sum (map (countChar c) l).
Proof.
  intros Hsep. induction l as [|x rest IH]; [reflexivity|].
  destruct rest as [|y rest'].
  - simpl. lia.
  - change (join sep (x :: y :: rest')) with (x ++ sep ++ join sep (y :: rest')).
    rewrite !countChar_append, IH, Hsep. cbn [map]. rewrite !list_sum_cons. lia.
Qed.

Lemma list_sum_zero {A : Type} (f : A -> nat) l :
  (forall x, In x l -> f x = 0%nat) -> list_sum (map f l) = 0%nat.
Proof.
  induction l as [|x rest IH]; intros H; [reflexivity|].
  cbn [map]. rewrite list_sum_cons, (H x (or_introl eq_refl)), IH; [reflexivity|].
  intros y Hy. apply H. now right.
Qed.

Lemma list_sum_ones {A : Type} (f : A -> nat) l :
  (forall x, In x l -> f x = 1%nat) -> list_sum (map f l) = List.length l.
Proof.
  induction l as [|x rest IH]; intros H; [reflexivity|].
  cbn [map List.length]. rewrite list_sum_cons, (H x (or_introl eq_refl)), IH;
    [reflexivity|].
  intros y Hy. apply H. now right.
Qed.

Lemma countChar_digits c d :
  (nat_of_ascii c < 48 \/ 57 < nat_of_ascii c)%nat ->
  countChar c (NilEmpty.string_of_uint d) = 0%nat.
Proof.
  intros Hc. induction d; cbn [NilEmpty.string_of_uint countChar];
    try reflexivity; rewrite IHd;
    match goal with
    | |- context [Ascii.eqb c ?x] =>
        destruct (Ascii.eqb c x) eqn:E; [|reflexivity];
        apply Ascii.eqb_eq in E; subst c; vm_compute in Hc; lia
    end.
Qed.

Lemma countChar_cons_zero c d rest :
  countChar c (String d rest) = 0%nat ->
  Ascii.eqb c d = false /\ countChar c rest = 0%nat.
Proof.
  cbn [countChar]. destruct (Ascii.eqb c d); [discriminate|]. now split.
Qed.

Lemma countChar_substring c s : forall a b,
  countChar c s = 0%nat -> countChar c (substring a b s) = 0%nat.
Proof.
  induction s as [|d rest IH]; intros a b H.
  - destruct a, b; reflexivity.
  - destruct (countChar_cons_zero _ _ _ H) as [E Hrest].
    destruct a as [|a]; [destruct b as [|b]; [reflexivity|]|].
    + cbn [substring countChar]. rewrite E. now apply IH.
    + cbn [substring]. now apply IH.
Qed.

Lemma countChar_zeros n : countChar "?" (zeros n) = 0%nat.
Proof. induction n as [|n IH]; [reflexivity|exact IH]. Qed.

Lemma countChar_dropZeros c s :
  countChar c s = 0%nat -> countChar c (dropZeros s) = 0%nat.
Proof.
  induction s as [|d rest IH]; intros H; [reflexivity|].
  destruct (countChar_cons_zero _ _ _ H) as [E Hrest].
  specialize (IH Hrest). cbn [dropZeros].
  destruct (dropZeros rest) as [|k kept].
  - destruct (Ascii.eqb d "0"); [reflexivity|]. cbn [countChar]. now rewrite E.
  - change (countChar c (String d (String k kept)))
      with ((if Ascii.eqb c d then 1 else 0) + countChar c (String k kept))%nat.
    now rewrite E, IH.
Qed.

Lemma countChar_uint d : countChar "?" (NilZero.string_of_uint d) = 0%nat.
Proof.
  assert (H : forall d, countChar "?" (NilEmpty.string_of_uint d) = 0%nat)
    by (intros d'; apply countChar_digits; cbn; lia).
  unfold NilZero.string_of_uint. destruct d; try reflexivity; apply H.
Qed.

Lemma countChar_decimal s n :
  countChar "?" s = 0%nat -> countChar "?" (decimalToString s n) = 0%nat.
Proof.
  intros H. unfold decimalToString. cbv zeta.
  repeat match goal with
         | |- context [if ?c then _ else _] => destruct c
         end;
    rewrite ?countChar_append, ?countChar_zeros, ?countChar_uint, ?H,
            ?(countChar_substring "?" s _ _ H);
    reflexivity.
Qed.

(** The text of a number contains no question mark. *)
Lemma countChar_number (n : number) : countChar "?" (NumberToString n) = 0%nat.
Proof.
  destruct n as [z|negative digits places| |negative]; cbn [NumberToString].
  - destruct (Z.abs z <? 10 ^ 21)%Z.
    + unfold NilZero.string_of_int.
      destruct (Z.to_int z) as [d|d]; [apply countChar_uint|].
      cbn [countChar]. change (Ascii.eqb "?" "-") with false.
      apply countChar_uint.
    + rewrite countChar_append, countChar_decimal;
        [now destruct (z <? 0)%Z|].
      apply countChar_dropZeros, countChar_uint.
  - rewrite countChar_append, countChar_decimal;
      [now destruct negative|apply countChar_uint].
  - reflexivity.
  - now destruct negative.
Qed.

Lemma conditions_of_keys (entries : list (string * value)) :
  map (fun entry => fst entry ++ " = ?") entries
  = map (fun key => key ++ " = ?") (map fst entries).
Proof. now rewrite map_map. Qed.

(** The text of the statement after the WHERE clause, which does not
    look at the conditions. *)
Lemma buildQuery_where input :
  buildQuery input
  = buildQuery (withWhereClauses input (whereClauses input)).
Proof. reflexivity. Qed.

(** X4.  The values of the WHERE conditions never reach the text of
    the statement: two inputs that differ only in the values of
    whereClauses give the same CQL text, and the parameter list is the
    values in the order of the entries. *)
Theorem where_values_are_parameters input entries entries' :
  whereClauses input = Some entries ->
  map fst entries' = map fst entries ->
  cql (buildQuery (withWhereClauses input (Some entries')))
  = cql (buildQuery input)
  /\ params (buildQuery input) = map snd entries
  /\ params (buildQuery (withWhereClauses input (Some entries')))
     = map snd entries'.
Proof.
  intros Hw Hkeys. unfold buildQuery.
  cbn [withWhereClauses keyspaceName tableName selectColumns whereClauses
       orderBy limit allowFiltering].
  rewrite Hw.
  destruct entries as [|e es], entries' as [|e' es']; try discriminate Hkeys.
  - repeat split.
  - rewrite !conditions_of_keys, Hkeys. repeat split.
Qed.

Lemma clean_count s : clean s = true -> countChar "?" s = 0%nat.
Proof. unfold clean. now rewrite Nat.eqb_eq. Qed.

Lemma count_columns columns :
  forallb clean columns = true ->
  countChar "?" (join ", " columns) = 0%nat.
Proof.
  intros H. rewrite countChar_join by reflexivity. apply list_sum_zero.
  intros x Hx. apply clean_count. rewrite forallb_forall in H. now apply H.
Qed.

Lemma count_conditions (entries : list (string * value)) :
  forallb (fun entry => clean (fst entry)) entries = true ->
  countChar "?" (join " AND " (map (fun entry => fst entry ++ " = ?") entries))
  = List.length entries.
Proof.
  intros H. rewrite countChar_join by reflexivity.
  rewrite map_map. apply list_sum_ones. intros x Hx.
  rewrite countChar_append. rewrite forallb_forall in H.
  rewrite (clean_count _ (H x Hx)). reflexivity.
Qed.

Lemma count_order_clauses obs :
  forallb (fun ob => clean (column ob)) obs = true ->
  countChar "?"
    (join ", " (map (fun ob => column ob ++ " " ++ directionText (order ob)) obs))
  = 0%nat.
Proof.
  intros H. rewrite countChar_join by reflexivity.
  rewrite map_map. apply list_sum_zero. intros x Hx.
  rewrite !countChar_append. rewrite forallb_forall in H.
  rewrite (clean_count _ (H x Hx)). now destruct (order x).
Qed.

(** X5.  When no keyspace, table or column name of the input contains
    a question mark, the statement has exactly as many placeholders as
    the parameter list has values. *)
Theorem placeholders_match_parameters input :
  namesClean input = true ->
  countChar "?" (cql (buildQuery input))
  = List.length (params (buildQuery input)).
Proof.
  unfold namesClean. rewrite !andb_true_iff.
  intros [[[[Hk Ht] Hs] Hw] Ho].
  apply clean_count in Hk, Ht.
  unfold buildQuery.
  set (selectExpression := match selectColumns input with
                           | Some ((_ :: _) as columns) => join ", " columns
                           | _ => "*"
                           end).
  assert (Hsel : countChar "?" selectExpression = 0%nat).
  { subst selectExpression. destruct (selectColumns input) as [[|c cs]|];
      try reflexivity. now apply count_columns. }
  set (base := "SELECT " ++ selectExpression ++ " FROM "
               ++ keyspaceName input ++ "." ++ tableName input).
  assert (Hbase : countChar "?" base = 0%nat).
  { subst base. rewrite !countChar_append, Hsel, Hk, Ht. reflexivity. }
  set (q := match whereClauses input with
            | Some ((_ :: _) as entries) =>
                (base ++ " WHERE "
                   ++ join " AND " (map (fun entry => fst entry ++ " = ?") entries),
                 map snd entries)
            | _ => (base, [])
            end).
  assert (Hq : countChar "?" (fst q) = List.length (snd q)).
  { subst q. destruct (whereClauses input) as [[|e es]|]; cbn [fst snd];
      try exact Hbase.
    rewrite !countChar_append, Hbase, count_conditions by exact Hw.
    now rewrite length_map. }
  destruct q as [text values]. cbn [fst snd] in Hq. cbn [cql params].
  assert (Horder :
            countChar "?"
              (match orderBy input with
               | Some given =>
                   if (0 <? List.length
                              match given with
                              | Several obs => obs
                              | Single ob => [ob]
                              end)%nat
                   then text ++ " ORDER BY "
                        ++ join ", "
                             (map (fun ob => column ob ++ " "
                                             ++ directionText (order ob))
                                  match given with
                                  | Several obs => obs
                                  | Single ob => [ob]
                                  end)
                   else text
               | None => text
               end) = List.length values).
  { destruct (orderBy input) as [given|]; [|exact Hq].
    destruct (0 <? _)%nat; [|exact Hq].
    rewrite !countChar_append, Hq, count_order_clauses; [cbn; lia|].
    destruct given; exact Ho. }
  rewrite countChar_append. cbn [countChar]. 
  destruct (allowFiltering input) as [[|]|];
    destruct (limit input) as [n|]; try destruct (truthy (Num n));
    rewrite ?countChar_append, ?countChar_number, ?Horder; cbn; lia.
Qed.

End SelectRowsFacts.
(* ================================================================== *)
(** * Sorting with any comparator, and the order of strings *)

Module OrderFacts.
Import ShowTableSchema DefaultSort.

Section AnyComparator.
Context {A : Type} (compareFn : A -> A -> Z).

Lemma insert_permutation x l : Permutation (insert compareFn x l) (x :: l).
Proof.
  induction l as [|y rest IH]; simpl; [reflexivity|].
  destruct (compareFn x y <=? 0)%Z; [reflexivity|].
  rewrite IH. apply perm_swap.
Qed.

Lemma sort_permutation l : Permutation (sort compareFn l) l.
Proof.
  induction l as [|x rest IH]; simpl; [reflexivity|].
  rewrite insert_permutation. now constructor.
Qed.

Context (le : A -> A -> Prop).
Hypothesis le_of_compare : forall a b, (compareFn a b <= 0)%Z -> le a b.
Hypothesis le_of_not_compare : forall a b, (0 < compareFn a b)%Z -> le b a.
Hypothesis le_trans : forall a b c, le a b -> le b c -> le a c.

Lemma insert_sorted_le x l :
  StronglySorted le l -> StronglySorted le (insert compareFn x l).
Proof.
  induction 1 as [|y rest Hs IH Hy]; simpl.
  - repeat constructor.
  - destruct (compareFn x y <=? 0)%Z eqn:E.
    + apply Z.leb_le in E. apply le_of_compare in E.
      constructor; [now constructor|].
      constructor; [exact E|].
      rewrite Forall_forall in *. intros z Hz. eapply le_trans; eauto.
    + apply Z.leb_gt in E. apply le_of_not_compare in E.
      constructor; [exact IH|].
      rewrite Forall_forall in *. intros z Hz.
      apply (Permutation_in _ (insert_permutation x rest)) in Hz.
      destruct Hz as [<-|Hz]; [exact E|now apply Hy].
Qed.

Lemma sort_sorted_le l : StronglySorted le (sort compareFn l).
Proof.
  induction l as [|x rest IH]; simpl; [constructor|now apply insert_sorted_le].
Qed.

End AnyComparator.

Lemma ascii_compare_trans a b c :
  Ascii.compare a b = Lt -> Ascii.compare b c = Lt -> Ascii.compare a c = Lt.
Proof.
  unfold Ascii.compare. rewrite !N.compare_lt_iff. apply N.lt_trans.
Qed.

Lemma compare_lt_trans a : forall b c,
  String.compare a b = Lt -> String.compare b c = Lt -> String.compare a c = Lt.
Proof.
  induction a as [|x a IH]; intros [|y b] [|z c]; simpl; try congruence.
  destruct (Ascii.compare x y) eqn:Exy; try discriminate;
    destruct (Ascii.compare y z) eqn:Eyz; try discriminate.
  - apply Ascii.compare_eq_iff in Exy, Eyz. subst.
    replace (Ascii.compare z z) with Eq
      by (symmetry; apply N.compare_refl).
    apply IH.
  - apply Ascii.compare_eq_iff in Exy. subst. now rewrite Eyz.
  - apply Ascii.compare_eq_iff in Eyz. subst. now rewrite Exy.
  - now rewrite (ascii_compare_trans x y z Exy Eyz).
Qed.

Lemma compare_refl a : String.compare a a = Eq.
Proof.
  induction a as [|x a IH]; simpl; [reflexivity|].
  replace (Ascii.compare x x) with Eq by (symmetry; apply N.compare_refl).
  exact IH.
Qed.

Lemma stringLe_trans a b c : stringLe a b -> stringLe b c -> stringLe a c.
Proof.
  unfold stringLe, String.leb. intros Hab Hbc.
  destruct (String.compare a b) eqn:Eab; try discriminate;
    destruct (String.compare b c) eqn:Ebc; try discriminate.
  - apply String.compare_eq_iff in Eab, Ebc. subst. now rewrite compare_refl.
  - apply String.compare_eq_iff in Eab. subst. now rewrite Ebc.
  - apply String.compare_eq_iff in Ebc. subst. now rewrite Eab.
  - now rewrite (compare_lt_trans a b c Eab Ebc).
Qed.

Lemma stringLe_of_compare a b : (defaultCompare a b <= 0)%Z -> stringLe a b.
Proof.
  unfold defaultCompare, stringLe, String.leb.
  destruct (String.compare a b); [reflexivity|reflexivity|lia].
Qed.

Lemma stringLe_of_not_compare a b : (0 < defaultCompare a b)%Z -> stringLe b a.
Proof.
  unfold defaultCompare, stringLe, String.leb.
  rewrite (String.compare_antisym b a).
  destruct (String.compare a b); cbn; [lia|lia|reflexivity].
Qed.

Lemma sortStrings_permutation l : Permutation (sortStrings l) l.
Proof. apply sort_permutation. Qed.

Lemma sortStrings_sorted l : StronglySorted stringLe (sortStrings l).
Proof.
  apply sort_sorted_le.
  - apply stringLe_of_compare.
  - apply stringLe_of_not_compare.
  - apply stringLe_trans.
Qed.

Lemma sortStrings_length l : List.length (sortStrings l) = List.length l.
Proof. apply Permutation_length, sortStrings_permutation. Qed.

Lemma sortStrings_In l x : In x (sortStrings l) <-> In x l.
Proof.
  split; intros H.
  - eapply Permutation_in; [apply sortStrings_permutation|exact H].
  - eapply Permutation_in; [symmetry; apply sortStrings_permutation|exact H].
Qed.

End OrderFacts.

(* ================================================================== *)
(** * Properties of the listing tools *)

Module ListingFacts.
Import Text Js TextFacts DefaultSort OrderFacts.

(** X6.  ListKeyspacesTool.execute returns either a list of names that
    is not empty and in ascending order, holding exactly the keys of
    [client.metadata.keyspaces] or, without includeSystemKeyspaces,
    those of them that neither start with system nor are dse_system;
    or the sentence, and then there is no key at all, or system
    keyspaces are not asked for and every key is the name of one. *)
Theorem keyspaces_listing includeSystemKeyspaces allKeyspaceNames :
  match ListKeyspaces.execute includeSystemKeyspaces allKeyspaceNames with
  | ListKeyspaces.Names keyspaces =>
      keyspaces <> []
      /\ StronglySorted stringLe keyspaces
      /\ (forall name,
            In name keyspaces <->
            In name allKeyspaceNames
            /\ (includeSystemKeyspaces = Some true
                \/ startsWith "system" name = false /\ name <> "dse_system"))
  | ListKeyspaces.Sentence text =>
      text = "No keyspaces found."
      /\ (allKeyspaceNames = []
          \/ includeSystemKeyspaces <> Some true
             /\ (forall name,
                   In name allKeyspaceNames ->
                   startsWith "system" name = true \/ name = "dse_system"))
  end.
Proof.
  unfold ListKeyspaces.execute.
  set (keyspaces := match includeSystemKeyspaces with
                    | Some true => allKeyspaceNames
                    | _ => filter ListKeyspaces.isUserKeyspace allKeyspaceNames
                    end).
  assert (Hkept : forall name,
             In name keyspaces <->
             In name allKeyspaceNames
             /\ (includeSystemKeyspaces = Some true
                 \/ startsWith "system" name = false /\ name <> "dse_system")).
  { intros name. subst keyspaces.
    assert (Hf : In name (filter ListKeyspaces.isUserKeyspace allKeyspaceNames)
                 <-> In name allKeyspaceNames
                     /\ startsWith "system" name = false /\ name <> "dse_system").
    { rewrite filter_In. unfold ListKeyspaces.isUserKeyspace.
      rewrite andb_true_iff, !negb_true_iff, String.eqb_neq. tauto. }
    destruct includeSystemKeyspaces as [[|]|].
    - tauto.
    - rewrite Hf. intuition discriminate.
    - rewrite Hf. intuition discriminate. }
  destruct (List.length keyspaces =? 0)%nat eqn:E.
  - split; [reflexivity|]. apply Nat.eqb_eq in E.
    apply length_zero_iff_nil in E.
    assert (Hno : forall name, ~ In name keyspaces)
      by (intros name; rewrite E; intros []).
    destruct allKeyspaceNames as [|first rest] eqn:A; [now left|]. right.
    split.
    + intros Hi. apply (Hno first). apply Hkept. split; [now left|now left].
    + intros name Hin. specialize (Hno name). rewrite Hkept in Hno.
      destruct (startsWith "system" name) eqn:S; [now left|].
      destruct (String.eqb_spec name "dse_system") as [->|Hne]; [now right|].
      exfalso. apply Hno. tauto.
  - split; [|split; [apply sortStrings_sorted|]].
    + intros N. rewrite <- (sortStrings_length keyspaces), N in E.
      discriminate E.
    + intros name. rewrite sortStrings_In. apply Hkept.
Qed.







(** X7.  A listing of ListTablesTool.execute names the requested
    keyspace and is sorted ascending.  With the flags query answered,
    the names are those of its rows, without the rows flagged
    materialized_view unless views were asked for; with the flags query
    rejected, they are the names of the plain query and, when views
    were asked for and their query is answered, the view names. *)
Theorem listed_tables keyspaceName includeViews db keyspace tables count :
  ListTables.execute keyspaceName includeViews db
  = ListTables.Listing keyspace tables count ->
  keyspace = keyspaceName
  /\ StronglySorted stringLe tables
  /\ (forall rows,
        ListTables.flaggedResult db = ShowTableSchema.Rows rows ->
        forall name,
          In name tables <->
          exists row,
            In row rows /\ FlaggedTableRow.table_name row = name
            /\ (includeViews = Some true
                \/ ~ In "materialized_view"
                        (match FlaggedTableRow.flags row with
                         | Some flags => flags
                         | None => []
                         end)))
  /\ (forall message names,
        ListTables.flaggedResult db = ShowTableSchema.Rejected message ->
        ListTables.fallbackResult db = ShowTableSchema.Rows names ->
        forall name,
          In name tables <->
          In name names
          \/ (includeViews = Some true
              /\ exists views,
                   ListTables.viewsResult db = ShowTableSchema.Rows views
                   /\ In name views)).
Proof.
  unfold ListTables.execute.
  set (wanted := match includeViews with Some true => true | _ => false end).
  assert (Hwanted : wanted = true <-> includeViews = Some true).
  { subst wanted. destruct includeViews as [[|]|]; split; congruence. }
  destruct (negb (ListTables.checkKeyspaceExists db)); [discriminate|].
  destruct (negb (ListTables.success (ListTables.getTables db wanted))
            || (List.length (ListTables.tables (ListTables.getTables db wanted))
                =? 0)%nat) eqn:E; [discriminate|].
  intros [= <- <- <-]. split; [reflexivity|].
  unfold ListTables.getTables in *.
  destruct (ListTables.flaggedResult db) as [[|row rows]|message].
  - discriminate E.
  - cbn [ListTables.tables]. split; [apply sortStrings_sorted|]. split.
    + intros rows' [= <-] name. rewrite sortStrings_In, in_map_iff. split.
      * intros [info [<- Hin]].
        assert (Hinfo : In info (map ListTables.tableInfo (row :: rows))
                        /\ (wanted = true \/ ListTables.isView info = false)).
        { destruct wanted; cbn [negb] in Hin.
          - split; [exact Hin|now left].
          - apply filter_In in Hin. rewrite negb_true_iff in Hin.
            split; [tauto|right; tauto]. }
        destruct Hinfo as [Hmap Hview]. apply in_map_iff in Hmap.
        destruct Hmap as [r [<- Hr]]. exists r. split; [exact Hr|].
        split; [reflexivity|].
        destruct Hview as [Hw|Hv]; [left; now apply Hwanted|right].
        cbn [ListTables.tableInfo ListTables.isView] in Hv.
        now apply FilterFacts.includes_false in Hv.
      * intros [r [Hr [<- Hview]]]. exists (ListTables.tableInfo r).
        split; [reflexivity|].
        assert (Hmap : In (ListTables.tableInfo r)
                          (map ListTables.tableInfo (row :: rows)))
          by now apply in_map.
        destruct wanted eqn:W; cbn [negb]; [exact Hmap|].
        apply filter_In. split; [exact Hmap|]. rewrite negb_true_iff.
        destruct Hview as [Hi|Hn].
        -- apply Hwanted in Hi. discriminate.
        -- cbn [ListTables.tableInfo ListTables.isView].
           now apply FilterFacts.includes_false.
    + intros message names [=].
  - unfold ListTables.strategy2 in *.
    destruct (ListTables.fallbackResult db) as [[|n ns]|message'].
    + discriminate E.
    + cbn [ListTables.tables]. split; [apply sortStrings_sorted|]. split.
      * intros rows [=].
      * intros message0 names _ [= <-] name.
        rewrite sortStrings_In, in_app_iff.
        destruct wanted eqn:W.
        -- assert (Hi : includeViews = Some true) by now apply Hwanted.
           destruct (ListTables.viewsResult db) as [views|m].
           ++ split; [intros [H|H]; [now left|right; eauto]|].
              intros [H|[_ [views' [[= <-] H]]]]; [now left|now right].
           ++ split; [intros [H|[]]; now left|].
              intros [H|[_ [views' [[=] _]]]]. now left.
        -- split; [intros [H|[]]; now left|].
           intros [H|[Hi _]]; [now left|].
           apply Hwanted in Hi. discriminate.
    + discriminate E.
Qed.

End ListingFacts.

(* ================================================================== *)
(** * Properties of getConsistencyLevel *)

Module ConsistencyFacts.
Import Text Js TextFacts Consistency.

Lemma own_In entries key l : own entries key = Some l -> In (key, l) entries.
Proof.
  induction entries as [|[k x] rest IH]; simpl; [discriminate|].
  destruct (String.eqb k key) eqn:E.
  - apply String.eqb_eq in E. intros [= ->]. left. now subst.
  - intros H. right. now apply IH.
Qed.

Lemma upperAscii_not_lower c : isLowerAscii (upperAscii c) = false.
Proof.
  unfold upperAscii. destruct (isLowerAscii c) eqn:E; [|exact E].
  unfold isLowerAscii in *. apply andb_true_iff in E. destruct E as [E1 E2].
  apply Nat.leb_le in E1, E2.
  rewrite nat_ascii_embedding by lia.
  apply andb_false_iff. left. apply Nat.leb_gt. lia.
Qed.

(** [toUpperCase] leaves no lower-case letter. *)
Lemma hasLower_toUpperCase s : hasLower (toUpperCase s) = false.
Proof.
  unfold toUpperCase. induction s as [|c s IH]; [reflexivity|].
  cbn [mapString hasLower]. now rewrite upperAscii_not_lower, IH.
Qed.

Lemma upperAscii_idempotent c : upperAscii (upperAscii c) = upperAscii c.
Proof. unfold upperAscii at 1. now rewrite upperAscii_not_lower. Qed.

Lemma toUpperCase_idempotent s : toUpperCase (toUpperCase s) = toUpperCase s.
Proof.
  unfold toUpperCase. induction s as [|c s IH]; [reflexivity|].
  cbn [mapString]. now rewrite IH, upperAscii_idempotent.
Qed.

Lemma not_inherited s : includes inheritedNames (toUpperCase s) = false.
Proof.
  apply FilterFacts.includes_false. intros Hin.
  pose proof (hasLower_toUpperCase s) as Hl.
  cbn [inheritedNames In] in Hin.
  repeat (destruct Hin as [E|Hin]; [rewrite <- E in Hl; discriminate Hl|]).
  contradiction.
Qed.

Lemma own_levelName l : own mapping (levelName l) = Some l.
Proof. now destruct l. Qed.

Lemma levelName_nonempty l : truthy (Str (levelName l)) = true.
Proof. now destruct l. Qed.

(** X9.  getConsistencyLevel decodes a name whatever its case: the
    result is the level whose key is the upper-cased name, it is
    undefined when there is no such key, never a property inherited
    from Object.prototype, and the same for the name and for its upper
    case. *)
Theorem consistency_level_decoded s :
  (forall l, getConsistencyLevel (Some s) = Level l
             <-> toUpperCase s = levelName l)
  /\ ((forall l, toUpperCase s <> levelName l) ->
      getConsistencyLevel (Some s) = Missing)
  /\ (forall property, getConsistencyLevel (Some s) <> Inherited property)
  /\ getConsistencyLevel (Some s) = getConsistencyLevel (Some (toUpperCase s)).
Proof.
  assert (Hlevel : forall l, getConsistencyLevel (Some s) = Level l
                             <-> toUpperCase s = levelName l).
  { intros l. unfold getConsistencyLevel. split.
    - destruct (negb (truthy (Str s))); [discriminate|].
      destruct (own mapping (toUpperCase s)) as [l'|] eqn:O.
      + intros [= ->]. apply own_In in O. cbn [mapping In] in O.
        repeat (destruct O as [[= <- <-]|O]; [reflexivity|]). contradiction.
      + rewrite not_inherited. discriminate.
    - intros E.
      assert (T : truthy (Str s) = true).
      { destruct s; [|reflexivity]. now destruct l. }
      rewrite T. cbn [negb]. now rewrite E, own_levelName. }
  assert (Hin : forall property,
             getConsistencyLevel (Some s) <> Inherited property).
  { intros property. unfold getConsistencyLevel.
    destruct (negb (truthy (Str s))); [discriminate|].
    destruct (own mapping (toUpperCase s)); [discriminate|].
    rewrite not_inherited. discriminate. }
  split; [exact Hlevel|]. split; [|split; [exact Hin|]].
  - intros Hno. destruct (getConsistencyLevel (Some s)) as [l|p|] eqn:G.
    + exfalso. apply (Hno l). now apply Hlevel.
    + exfalso. exact (Hin p eq_refl).
    + reflexivity.
  - unfold getConsistencyLevel.
    rewrite toUpperCase_idempotent.
    assert (T : truthy (Str (toUpperCase s)) = truthy (Str s))
      by now destruct s.
    now rewrite T.
Qed.

End ConsistencyFacts.
(* ================================================================== *)
(** * The resolver on nested descriptors; the shape of a statement *)

Module DescriptorFacts.
Import Text Js DescribeTable Descriptors ResolverFacts ResolverClaims.

(** Induction over descriptors, with the elements of a tuple. *)
Lemma Raw_induction (P : Raw -> Prop) :
  (forall name, P (Plain name)) ->
  (forall name, P (Named name)) ->
  (forall k v, P k -> P v -> P (MapOf k v)) ->
  (forall e, P e -> P (ListOf e)) ->
  (forall e, P e -> P (SetOf e)) ->
  (forall types, Forall P types -> P (TupleOf types)) ->
  forall raw, P raw.
Proof.
  intros HP HN HM HL HS HT.
  fix self 1. intros [name|name|k v|e|e|types].
  - apply HP.
  - apply HN.
  - apply HM; apply self.
  - apply HL, self.
  - apply HS, self.
  - apply HT. induction types as [|t rest IH]; constructor; [apply self|exact IH].
Qed.

Lemma encode_truthy raw : wellNamed raw = true -> truthy (encode raw) = true.
Proof. destruct raw; cbn; trivial. Qed.

Section Resolver.
Variable dataTypes : list (string * Z).

Lemma joinValues_strings sep (l : list string) :
  joinValues sep (map Str l) = Some (join sep l).
Proof.
  unfold joinValues.
  assert (H : sequence (map (fun x => match x with
                                      | Undefined | Null => Some EmptyString
                                      | _ => ToString x
                                      end) (map Str l)) = Some l).
  { induction l as [|x rest IH]; [reflexivity|].
    cbn [map sequence ToString]. now rewrite IH. }
  now rewrite H.
Qed.

(** X10.  For every descriptor built from non-empty names with the
    map, list, set and tuple shapes, the resolver returns the CQL
    notation of the type, provided the engine lets as many calls of the
    resolver nest as the descriptor has levels.  (A deeper descriptor
    makes the engine throw a RangeError, which a [catch] clause turns
    into ['unknown']; nothing is stated of that case.) *)
Theorem resolve_renders raw : forall limit,
  wellNamed raw = true ->
  (nesting raw <= limit)%nat ->
  getColumnTypeString_fuel dataTypes limit (encode raw) = Str (render raw).
Proof.
  induction raw as [name|name|k v IHk IHv|e IHe|e IHe|types IH]
    using Raw_induction; intros limit Hw Hn;
    (destruct limit as [|limit]; [cbn [nesting] in Hn; lia|]);
    cbn [nesting] in Hn; cbn [getColumnTypeString_fuel].
  - unfold body. cbn [encode truthy]. cbn [wellNamed] in Hw. rewrite Hw.
    reflexivity.
  - cbn in Hw |- *. unfold body, tryBlock. cbn. now rewrite Hw.
  - cbn [wellNamed] in Hw. apply andb_true_iff in Hw. destruct Hw as [Hk Hv].
    unfold body, tryBlock.
    cbn [encode truthy typeof get lookup String.eqb Ascii.eqb Bool.eqb
         negb andb isUndefined].
    rewrite (encode_truthy k Hk), (encode_truthy v Hv). cbn [andb].
    rewrite (IHk limit Hk), (IHv limit Hv) by lia. reflexivity.
  - cbn [wellNamed] in Hw.
    unfold body, tryBlock.
    cbn [encode truthy typeof get lookup String.eqb Ascii.eqb Bool.eqb
         negb andb isUndefined].
    rewrite (encode_truthy e Hw). cbn [andb].
    rewrite (IHe limit Hw) by lia. reflexivity.
  - cbn [wellNamed] in Hw.
    unfold body, tryBlock.
    cbn [encode truthy typeof get lookup String.eqb Ascii.eqb Bool.eqb
         negb andb isUndefined isArray first].
    rewrite (IHe limit Hw) by lia. reflexivity.
  - cbn [wellNamed] in Hw.
    unfold body, tryBlock.
    cbn [encode truthy typeof get lookup String.eqb Ascii.eqb Bool.eqb
         negb andb isUndefined isArray elements].
    assert (Hmap : map (getColumnTypeString_fuel dataTypes limit)
                       (map encode types)
                   = map Str (map render types)).
    { rewrite !map_map. apply map_ext_in. intros t Ht.
      rewrite Forall_forall in IH. rewrite forallb_forall in Hw.
      apply IH; [exact Ht|now apply Hw|].
      assert (nesting t <= list_max (map nesting types))%nat; [|lia].
      clear - Ht. induction types as [|x rest IHl]; [destruct Ht|].
      unfold list_max; cbn [map fold_right]; fold (list_max (map nesting rest)). destruct Ht as [->|Ht]; [lia|].
      specialize (IHl Ht). lia. }
    rewrite Hmap, joinValues_strings. reflexivity.
Qed.

End Resolver.
End DescriptorFacts.

Module ClauseFacts.
Import Text Js ShowTableSchema Clauses TextFacts SchemaFacts.

(** X11.  For every input the CREATE TABLE statement is the header,
    the column lines joined by a comma and a line feed, the PRIMARY KEY
    clause, the closing parenthesis on a line of its own, the
    CLUSTERING ORDER BY clause, the storage options introduced by WITH
    or, after a clustering order, by AND, and a semicolon. *)
Theorem statement_shape keyspaceName tableName tableInfo columnRows keyRows :
  createTable keyspaceName tableName tableInfo columnRows keyRows
  = "CREATE TABLE " ++ keyspaceName ++ "." ++ tableName ++ " (" ++ LF
    ++ join ("," ++ LF) (map columnLine columnRows)
    ++ primaryKeyClause (partitionKeys keyRows) (clusteringKeys keyRows)
    ++ LF ++ ")"
    ++ clusteringOrderClause (clusteringKeys keyRows)
    ++ optionsClause (optionsIntroducer (clusteringKeys keyRows))
                     (tableOptions tableInfo)
    ++ ";".
Proof.
  unfold createTable. rewrite addColumns_join.
  unfold addPrimaryKey, addClusteringOrder, addTableOptions, optionsClause,
    primaryKeyClause, clusteringOrderClause, optionsIntroducer.
  destruct (partitionKeys keyRows) as [|a [|b rest]];
    destruct (clusteringKeys keyRows) as [|ck cks];
    destruct (tableOptions tableInfo) as [|o os];
    cbn [List.length Nat.ltb Nat.leb Nat.eqb orb hd];
    rewrite ?append_assoc, ?append_nil_r; cbn [append];
    rewrite ?append_assoc; reflexivity.
Qed.

End ClauseFacts.
(* ================================================================== *)
(** * The connection state *)

Module ConnectionFacts.
Import Text Js Connection.

Lemma step_consistent s call : consistent s -> consistent (step s call).
Proof.
  intros H. destruct call as [params events|shutdown|name use]; cbn [step].
  - unfold connectTool, connectToCassandra.
    destruct (construction events); [cbn; auto|].
    destruct (connection events); [cbn; auto|].
    cbn. exists params, (now events). auto.
  - unfold disconnectTool, disconnectFromCassandra.
    destruct (client s) eqn:C; [destruct shutdown; cbn; auto|].
    cbn [fst]. exact H.
  - unfold useKeyspace, consistent in *.
    destruct (client s) as [c|] eqn:C; [|cbn [fst]; now rewrite C].
    destruct use as [e|]; [cbn [fst]; now rewrite C|].
    cbn [fst]. simpl.
    destruct H as [params [time [-> [-> [H1 H2]]]]].
    exists (withKeyspace params name), time. auto.
Qed.

Lemma run_consistent calls : consistent (run calls).
Proof.
  unfold run. assert (H : consistent initial) by (cbn; auto).
  revert H. generalize initial. induction calls as [|call rest IH];
    intros s Hs; [exact Hs|].
  cbn [fold_left]. apply IH. now apply step_consistent.
Qed.

(** X12.  After any sequence of connect, disconnect and use-keyspace
    calls, run one after the other from the initial state:
    getConnectionStatus reports a connection exactly when
    getCassandraClient returns a client; when connected, the status
    carries a configuration with the contact points and data center the
    client was made with, and a connection time; when not, the
    configuration and the time are cleared and getCassandraClient
    throws. *)
Theorem connection_invariant calls :
  let s := run calls in
  let status := getConnectionStatus s in
  (isConnected status = true <->
   exists c, getCassandraClient s = Returned c)
  /\ (isConnected status = true ->
      exists c shown time,
        client s = Some c
        /\ config status = Some shown
        /\ statusConnectionTime status = Some time
        /\ configContactPoints shown = ClientOptions.contactPoints c
        /\ configLocalDataCenter shown = ClientOptions.localDataCenter c)
  /\ (isConnected status = false ->
      currentConnectionConfig s = None /\ connectionTime s = None
      /\ getCassandraClient s
         = Thrown "Cassandra client is not initialized. Call connect first.").
Proof.
  intros s status. subst status.
  pose proof (run_consistent calls) as H. fold s in H.
  unfold consistent, getConnectionStatus, getCassandraClient in *.
  destruct (client s) as [c|] eqn:C.
  - destruct H as [params [time [Hp [Ht [H1 H2]]]]]. rewrite Hp, Ht.
    cbn [isConnected config statusConnectionTime]. split; [|split].
    + split; [intros _; now exists c|reflexivity].
    + intros _. eexists c, _, time. repeat split; cbn; auto.
    + discriminate.
  - destruct H as [Hp Ht]. cbn [isConnected]. split; [|split].
    + split; [discriminate|]. intros [c [=]].
    + discriminate.
    + auto.
Qed.

Lemma prefix_append p s : String.prefix p (p ++ s) = true.
Proof.
  induction p as [|a p IH]; cbn [String.append String.prefix];
    [now destruct s|].
  destruct (Ascii.ascii_dec a a) as [_|N]; [exact IH|now elim N].
Qed.

Lemma connectError_prefix params e :
  exists rest,
    connectError params e
    = "Failed to connect to Cassandra: " ++ messageText e ++ rest.
Proof.
  unfold connectError.
  destruct (codeIs e "ECONNREFUSED"); [|destruct (codeIs e "ETIMEDOUT");
    [|destruct (messageIncludes e "authentication")]];
    try (eexists; rewrite TextFacts.append_assoc; reflexivity).
  exists EmptyString. now rewrite TextFacts.append_nil_r.
Qed.

(** X13.  ConnectTool.execute from any state: when neither the
    construction of the client nor the connection fails, the module
    holds a client made from the input, with a port that is not 0, and
    the status shows the input's contact points, keyspace and data
    center; otherwise the answer carries both prefixes and the message
    of the error, and the module is left disconnected, whatever
    connection it held before. *)
Theorem connect_outcome s params events :
  let result := connectTool s params events in
  (snd result = "Successfully connected to Cassandra."
   /\ construction events = None /\ connection events = None
   /\ getCassandraClient (fst result) = Returned (clientOptions params)
   /\ getConnectionStatus (fst result)
      = {| isConnected := true;
           config := Some {| configContactPoints := contactPoints params;
                             configKeyspace := keyspace params;
                             configLocalDataCenter := localDataCenter params |};
           statusConnectionTime := Some (now events) |}
   /\ ClientOptions.port (clientOptions params) <> 0%Z)
  \/ (exists e rest,
        (construction events = Some e
         \/ construction events = None /\ connection events = Some e)
        /\ snd result
           = "Failed to connect: Failed to connect to Cassandra: "
               ++ messageText e ++ rest
        /\ fst result = disconnected
        /\ getConnectionStatus (fst result)
           = {| isConnected := false; config := None;
                statusConnectionTime := None |}).
Proof.
  intros result. subst result. unfold connectTool, connectToCassandra.
  destruct (construction events) as [e|] eqn:C.
  - right. destruct (connectError_prefix params e) as [rest R].
    exists e, rest. cbn [fst snd]. rewrite R. auto.
  - destruct (connection events) as [e|] eqn:N.
    + right. destruct (connectError_prefix params e) as [rest R].
      exists e, rest. cbn [fst snd]. rewrite R. auto.
    + left. cbn [fst snd]. repeat (split; [reflexivity|]).
      cbn [clientOptions ClientOptions.port]. unfold portOf.
      destruct (port params) as [p|]; [|discriminate].
      destruct (truthy (Num p)) eqn:T; [|discriminate].
      intros ->. discriminate T.
Qed.

(** X14.  DisconnectTool.execute always leaves the module without a
    client, also when the shutdown fails; it reports a failure only
    when there was a client and its shutdown failed, and success
    otherwise, also when nothing was connected. *)
Theorem disconnect_outcome s shutdown :
  let result := disconnectTool s shutdown in
  client (fst result) = None
  /\ getCassandraClient (fst result)
     = Thrown "Cassandra client is not initialized. Call connect first."
  /\ (consistent s -> fst result = disconnected)
  /\ match client s, shutdown with
     | Some _, Some e =>
         snd result
         = "Failed to disconnect: Failed to disconnect from Cassandra: "
             ++ messageText e
     | _, _ => snd result = "Successfully disconnected from Cassandra."
     end.
Proof.
  intros result. subst result.
  unfold disconnectTool, disconnectFromCassandra, getCassandraClient, consistent.
  destruct (client s) as [c|] eqn:C.
  - destruct shutdown as [e|]; cbn [fst snd client disconnected initial]; auto.
  - cbn [fst snd]. rewrite C. repeat split; auto.
    intros [H1 H2]. destruct s as [c' cfg t]. cbn in *. now subst.
Qed.

End ConnectionFacts.
(* ================================================================== *)
(** * More on the resolver and on the display names *)

Module ResolverTyping.
Import Text Js DescribeTable ResolverFacts ResolverClaims.

Section Resolver.
Variable dataTypes : list (string * Z).

(** X15.  The resolver returns a string whenever the descriptor has a
    code or its name field is absent or a string; for an object with no
    code and a truthy name it returns the name field as it is, string
    or not. *)
Theorem resolver_returns_text type :
  (hasCode type = true \/ nameIsText type = true ->
   exists s, getColumnTypeString dataTypes type = Str s)
  /\ (hasCode type = false -> hasName type = true ->
      truthy type = true ->
      getColumnTypeString dataTypes type = get type "name").
Proof.
  split.
  - intros H. rewrite getColumnTypeString_eq. unfold body.
    destruct (negb (truthy type)); [eauto|].
    destruct type as [| |b|z|s|elems|props].
    1-5: unfold tryBlock; cbn;
         try destruct b;
         try (destruct z as [z| | |]; cbn; try destruct (z =? 0)%Z);
         cbn; eauto.
    { unfold tryBlock. cbn. destruct (sequence _); eauto. }
    unfold tryBlock. cbv zeta.
    change (truthy (Obj props)) with true.
    change (typeof (Obj props)) with "object".
    cbn [negb andb String.eqb Ascii.eqb Bool.eqb].
    unfold hasCode, nameIsText in H.
    destruct (isUndefined (get (Obj props) "code")) eqn:C; cbn [negb] in *.
    + destruct H as [H|H]; [discriminate|].
      destruct (truthy (get (Obj props) "name")) eqn:N.
      * destruct (get (Obj props) "name"); try discriminate; eauto.
      * cbn [ToString].
        repeat match goal with
               | |- context [lookup props "toString"] =>
                   destruct (lookup props "toString")
               | |- context [if ?c then _ else _] => destruct c
               | |- context [match ToString ?x with _ => _ end] =>
                   destruct (ToString x)
               | |- context [match joinValues ?a ?b with _ => _ end] =>
                   destruct (joinValues a b)
               end; eauto.
    + destruct (nameOfCode dataTypes (get (Obj props) "code")); [eauto|].
      destruct (ToString (get (Obj props) "code")); eauto.
  - intros Hc Hn Ht. rewrite getColumnTypeString_eq. unfold body.
    rewrite Ht. cbn [negb].
    destruct type; try discriminate Hn.
    unfold tryBlock. cbv zeta.
    change (truthy (Obj props)) with true.
    change (typeof (Obj props)) with "object".
    cbn [negb andb String.eqb Ascii.eqb Bool.eqb].
    unfold hasCode in Hc. rewrite Hc. unfold hasName in Hn. now rewrite Hn.
Qed.

End Resolver.
End ResolverTyping.

Module CamelFacts.
Import Text TextFacts ConsistencyFacts DisplayNames.

Lemma hasSnake_cons c t :
  hasSnake (String c t) = (Ascii.eqb c "_" && headIsLower t) || hasSnake t.
Proof.
  destruct t as [|d r]; cbn [hasSnake headIsLower]; [|reflexivity].
  now rewrite andb_false_r.
Qed.

Lemma upper_is_not_underscore letter :
  isLowerAscii letter = true -> Ascii.eqb (upperAscii letter) "_" = false.
Proof.
  intros Hl. apply Ascii.eqb_neq. intros Eq.
  unfold upperAscii in Eq. rewrite Hl in Eq.
  unfold isLowerAscii in Hl. apply andb_true_iff in Hl.
  destruct Hl as [L1 L2]. apply Nat.leb_le in L1, L2.
  apply (f_equal nat_of_ascii) in Eq.
  rewrite nat_ascii_embedding in Eq by lia. cbn in Eq. lia.
Qed.

Lemma snakeToCamel_cons c letter rest :
  snakeToCamel (String c (String letter rest))
  = if Ascii.eqb c "_" && isLowerAscii letter
    then String (upperAscii letter) (snakeToCamel rest)
    else String c (snakeToCamel (String letter rest)).
Proof. reflexivity. Qed.

Lemma camel_facts n : forall s,
  (String.length s <= n)%nat ->
  hasSnake (snakeToCamel s) = false
  /\ (headIsLower s = false -> headIsLower (snakeToCamel s) = false).
Proof.
  induction n as [|n IH]; intros s Hlen.
  - destruct s; [split; reflexivity|cbn in Hlen; lia].
  - destruct s as [|c rest]; [split; reflexivity|].
    destruct rest as [|letter rest']; [split; [reflexivity|trivial]|].
    cbn [String.length] in Hlen.
    rewrite snakeToCamel_cons.
    destruct (Ascii.eqb c "_" && isLowerAscii letter) eqn:M.
    + destruct (IH rest' ltac:(lia)) as [Hs _].
      apply andb_true_iff in M. destruct M as [_ Hl].
      split.
      * rewrite hasSnake_cons, Hs, (upper_is_not_underscore letter Hl).
        reflexivity.
      * intros _. cbn [headIsLower]. apply upperAscii_not_lower.
    + destruct (IH (String letter rest') ltac:(cbn [String.length]; lia))
        as [Hs Hh].
      split; [|trivial].
      rewrite hasSnake_cons, Hs, orb_false_r.
      destruct (Ascii.eqb c "_"); [|reflexivity].
      cbn [andb] in *. now apply Hh.
Qed.

Lemma camel_fixed n : forall s,
  (String.length s <= n)%nat -> hasSnake s = false -> snakeToCamel s = s.
Proof.
  induction n as [|n IH]; intros s Hlen Hs.
  - destruct s; [reflexivity|cbn in Hlen; lia].
  - destruct s as [|c rest]; [reflexivity|].
    destruct rest as [|letter rest']; [reflexivity|].
    cbn [String.length] in Hlen. cbn [hasSnake] in Hs.
    apply orb_false_iff in Hs. destruct Hs as [M Hrest].
    rewrite snakeToCamel_cons, M. f_equal.
    apply IH; [cbn [String.length]; lia|exact Hrest].
Qed.

(** X16.  The conversion of an option key to camel case leaves no
    underscore followed by a lower-case letter, changes nothing when
    applied again, and leaves a key without such a pair as it is. *)
Theorem snakeToCamel_complete s :
  hasSnake (snakeToCamel s) = false
  /\ snakeToCamel (snakeToCamel s) = snakeToCamel s
  /\ (hasSnake s = false -> snakeToCamel s = s).
Proof.
  assert (H : hasSnake (snakeToCamel s) = false)
    by (apply (camel_facts (String.length s)); lia).
  split; [exact H|]. split.
  - apply (camel_fixed (String.length (snakeToCamel s))); [lia|exact H].
  - apply (camel_fixed (String.length s)); lia.
Qed.

End CamelFacts.
(* ================================================================== *)
(** * More concrete runs *)

Module MoreRuns.
Import Text Js MoreSamples.

Lemma eventKeys_distinct : NoDup (map KeyRow.column_name eventKeys).
Proof. repeat constructor; cbn [In]; intuition discriminate. Qed.

Lemma describe_clustering_order_witness :
  exists entries,
    Describe.clusteringOrder
      (Describe.describe DescribeTable.cassandraDataTypes "ks" "events"
                         Samples.bareTableRow eventColumns eventKeys)
    = Some entries
    /\ (forall e, In e entries ->
          In {| ShowTableSchema.name := Describe.column e;
                ShowTableSchema.order := Describe.order e |}
             (ShowTableSchema.clusteringKeys eventKeys))
    /\ (forall ck, In ck (ShowTableSchema.clusteringKeys eventKeys) ->
          In (ShowTableSchema.name ck)
             (map DescribeColumnRow.column_name eventColumns) ->
          In {| Describe.column := ShowTableSchema.name ck;
                Describe.order := ShowTableSchema.order ck |} entries)
    /\ map Describe.column entries
       = filter (includes (map ShowTableSchema.name
                               (ShowTableSchema.clusteringKeys eventKeys)))
                (map DescribeColumnRow.column_name eventColumns).
Proof.
  exact (DescribeFacts.describe_clustering_order
           DescribeTable.cassandraDataTypes "ks" "events"
           Samples.bareTableRow eventColumns eventKeys eventKeys_distinct).
Defined.

(** The describe tool lists the clustering orders in the order of the
    column rows, the CREATE TABLE tool in the order of the positions. *)
Example clustering_orders_in_column_order :
  Describe.clusteringOrder
    (Describe.describe DescribeTable.cassandraDataTypes "ks" "events"
                       Samples.bareTableRow eventColumns eventKeys)
  = Some [ {| Describe.column := "seq"; Describe.order := "ASC" |};
           {| Describe.column := "ts"; Describe.order := "DESC" |} ]
  /\ ShowTableSchema.clusteringKeys eventKeys
     = [ {| ShowTableSchema.name := "ts"; ShowTableSchema.order := "DESC" |};
         {| ShowTableSchema.name := "seq"; ShowTableSchema.order := "ASC" |} ].
Proof. split; reflexivity. Qed.

Example describe_falls_back :
  Describe.execute DescribeTable.cassandraDataTypes "ks" "events"
    {| Describe.tableResult := ShowTableSchema.Rows [Samples.bareTableRow];
       Describe.columnsResult := ShowTableSchema.Rejected "timeout";
       Describe.keysResult := ShowTableSchema.Rows eventKeys;
       Describe.fallbackTableCheck := ShowTableSchema.Rows [Samples.bareTableRow];
       Describe.fallbackColumnsResult := ShowTableSchema.Rows eventColumns;
       Describe.fallbackKeysResult := ShowTableSchema.Rejected "unavailable" |}
  = Describe.Error "Failed to describe table 'ks.events': timeout".
Proof. reflexivity. Qed.

Lemma where_values_are_parameters_witness :
  SelectRows.cql
    (SelectRows.buildQuery
       (SelectRows.withWhereClauses selectInput
          (Some [("id", Str "1; DROP TABLE events"); ("seq", Null)])))
  = SelectRows.cql (SelectRows.buildQuery selectInput)
  /\ SelectRows.params (SelectRows.buildQuery selectInput)
     = map snd [("id", Str "42"); ("seq", Num 7)]
  /\ SelectRows.params
       (SelectRows.buildQuery
          (SelectRows.withWhereClauses selectInput
             (Some [("id", Str "1; DROP TABLE events"); ("seq", Null)])))
     = map snd [("id", Str "1; DROP TABLE events"); ("seq", Null)].
Proof.
  exact (SelectRowsFacts.where_values_are_parameters selectInput
           [("id", Str "42"); ("seq", Num 7)]
           [("id", Str "1; DROP TABLE events"); ("seq", Null)]
           eq_refl eq_refl).
Defined.

Lemma placeholders_match_parameters_witness :
  SelectRows.countChar "?" (SelectRows.cql (SelectRows.buildQuery selectInput))
  = List.length (SelectRows.params (SelectRows.buildQuery selectInput)).
Proof.
  exact (SelectRowsFacts.placeholders_match_parameters selectInput eq_refl).
Defined.

Example select_statement :
  SelectRows.buildQuery selectInput
  = {| SelectRows.cql :=
         "SELECT id, value FROM ks.events WHERE id = ? AND seq = ? ORDER BY ts DESC LIMIT 10 ALLOW FILTERING;";
       SelectRows.params := [Str "42"; Num 7] |}.
Proof. reflexivity. Qed.


(** When every name listed is a view, the views are counted as tables
    too. *)
Example views_counted_twice :
  ListTables.execute "ks" (Some true) onlyViews
  = ListTables.Listing "ks" ["by_day"; "by_user"]
      {| ListTables.total := 2; ListTables.countTables := 2;
         ListTables.countViews := 2 |}.
Proof. reflexivity. Qed.

Lemma listed_tables_witness :
  "ks" = "ks"
  /\ StronglySorted DefaultSort.stringLe ["events"; "users"]
  /\ (forall rows,
        ListTables.flaggedResult tablesAndViews = ShowTableSchema.Rows rows ->
        forall name,
          In name ["events"; "users"] <->
          exists row,
            In row rows /\ FlaggedTableRow.table_name row = name
            /\ (None = Some true
                \/ ~ In "materialized_view"
                        (match FlaggedTableRow.flags row with
                         | Some flags => flags
                         | None => []
                         end)))
  /\ (forall message names,
        ListTables.flaggedResult tablesAndViews
        = ShowTableSchema.Rejected message ->
        ListTables.fallbackResult tablesAndViews = ShowTableSchema.Rows names ->
        forall name,
          In name ["events"; "users"] <->
          In name names
          \/ (None = Some true
              /\ exists views,
                   ListTables.viewsResult tablesAndViews
                   = ShowTableSchema.Rows views
                   /\ In name views)).
Proof.
  exact (ListingFacts.listed_tables "ks" None tablesAndViews "ks"
           ["events"; "users"]
           {| ListTables.total := 2; ListTables.countTables := 2;
              ListTables.countViews := 0 |} eq_refl).
Defined.

Example no_keyspace_at_all :
  ListKeyspaces.execute (Some true) []
  = ListKeyspaces.Sentence "No keyspaces found."
  /\ ListKeyspaces.execute None ["system"; "dse_system"; "system_schema"]
     = ListKeyspaces.Sentence "No keyspaces found.".
Proof. split; reflexivity. Qed.

Example user_keyspaces :
  ListKeyspaces.execute None
    ["zeta"; "system_auth"; "app"; "systematic"; "dse_system"; "Apple"]
  = ListKeyspaces.Names ["Apple"; "app"; "zeta"].
Proof. reflexivity. Qed.

Lemma resolve_renders_witness :
  DescribeTable.getColumnTypeString_fuel DescribeTable.cassandraDataTypes 4
    (Descriptors.encode nestedType)
  = Str "map<text, tuple<list<address>, set<uuid>, tuple<>>>".
Proof.
  exact (DescriptorFacts.resolve_renders DescribeTable.cassandraDataTypes
           nestedType 4 eq_refl (le_n 4)).
Defined.

Example consistency_any_case :
  Consistency.getConsistencyLevel (Some "Local_Quorum")
  = Consistency.Level Consistency.localQuorum
  /\ Consistency.getConsistencyLevel (Some "strong") = Consistency.Missing
  /\ Consistency.getConsistencyLevel (Some "constructor") = Consistency.Missing.
Proof. repeat split. Qed.

(** A connection that fails after an earlier one succeeded leaves the
    module disconnected. *)
Example failed_reconnect :
  forall params params' time,
    Connection.getCassandraClient
      (Connection.run
         [Connection.Connect params
            {| Connection.construction := None; Connection.connection := None;
               Connection.now := time |};
          Connection.Connect params'
            {| Connection.construction := None;
               Connection.connection :=
                 Some {| Connection.message := Some "refused";
                         Connection.code := Some "ECONNREFUSED" |};
               Connection.now := time |}])
    = Connection.Thrown "Cassandra client is not initialized. Call connect first.".
Proof. reflexivity. Qed.

End MoreRuns.
